(** * Disk-Scheduler: the scheduling engine of [diskscheduler.py] and [ui.py]

    The repository ships the class [DiskScheduler] twice: once in the
    command-line simulator ([diskscheduler.py]) and once in the Streamlit
    front-end ([ui.py]).  Both are embedded below, each in a module named
    after its file, over Python integers as [Z] and Python lists as
    [list Z].  A method call either returns a value or raises. *)

From Stdlib Require Import ZArith List Bool String Lia Sorted Permutation.
From Stdlib Require Import DecimalString.
From Equations Require Import Equations.
From Equations.Prop Require Import Logic.
Import ListNotations.

Local Open Scope Z_scope.

(** ** Outcomes of a Python call *)

(** The only exception the engine can raise is [ValueError], carrying its
    message. *)
Inductive exn : Type :=
| ValueError (msg : string).

Inductive outcome (A : Type) : Type :=
| Returns (a : A)
| Raises (e : exn).

Arguments Returns {A} a.
Arguments Raises {A} e.

Definition bind {A B : Type} (m : outcome A) (k : A -> outcome B) : outcome B :=
  match m with
  | Returns a => k a
  | Raises e => Raises e
  end.

Notation "x <- m ;; k" := (bind m (fun x => k))
  (at level 61, m at next level, right associativity).

(** ** The Python built-ins the engine relies on *)

Module Py.

(** [str(n)] for an integer, as an f-string interpolates it. *)
Definition str (n : Z) : string := NilZero.string_of_int (Z.to_int n).

(** [sum(l)]: left-to-right accumulation from 0. *)
Definition sum (l : list Z) : Z := fold_left Z.add l 0.

(** [sorted(l)]: a stable ascending sort. *)
Fixpoint insert (x : Z) (l : list Z) : list Z :=
  match l with
  | [] => [x]
  | y :: l' => if x <? y then x :: y :: l' else y :: insert x l'
  end.

Definition sorted (l : list Z) : list Z :=
  fold_left (fun acc x => insert x acc) l [].

(** [sorted(l, reverse=True)]: a stable descending sort. *)
Fixpoint insert_desc (x : Z) (l : list Z) : list Z :=
  match l with
  | [] => [x]
  | y :: l' => if x >? y then x :: y :: l' else y :: insert_desc x l'
  end.

Definition sorted_reverse (l : list Z) : list Z :=
  fold_left (fun acc x => insert_desc x acc) l [].

(** [min(x :: l, key=key)]: the running best is replaced only by a
    strictly smaller key, so the first minimum met wins. *)
Fixpoint min_from (key : Z -> Z) (best : Z) (l : list Z) : Z :=
  match l with
  | [] => best
  | y :: l' => if key y <? key best then min_from key y l' else min_from key best l'
  end.

(** [min(l, key=key)] raises [ValueError] on an empty list. *)
Definition min (l : list Z) (key : Z -> Z) : outcome Z :=
  match l with
  | [] => Raises (ValueError "min() arg is an empty sequence")
  | x :: l' => Returns (min_from key x l')
  end.

(** [l.remove(x)]: removes the first occurrence, raises [ValueError]
    when there is none. *)
Fixpoint remove (x : Z) (l : list Z) : outcome (list Z) :=
  match l with
  | [] => Raises (ValueError "list.remove(x): x not in list")
  | y :: l' =>
      if y =? x then Returns l'
      else l'' <- remove x l' ;; Returns (y :: l'')
  end.

(** Truthiness of a list: [if l] holds for a non-empty list. *)
Definition truthy (l : list Z) : bool :=
  match l with [] => false | _ :: _ => true end.

End Py.

(** The direction test [direction == 'right'] compares strings. *)
Definition is_right (direction : string) : bool := String.eqb direction "right".

(** ** [diskscheduler.py] *)

Module diskscheduler.

Record DiskScheduler : Type := mkDiskScheduler {
  initial_position : Z;
  current_position : Z;
  max_cylinder : Z;
  requests : list Z
}.

(** [__init__(self, initial_position, max_cylinder=200)] *)
Definition init (initial_position max_cylinder : Z) : outcome DiskScheduler :=
  Returns (mkDiskScheduler initial_position initial_position max_cylinder []).

(** [add_request]: the scheduler after the call, and how the call ended. *)
Definition add_request (cylinder : Z) (self : DiskScheduler)
  : outcome unit * DiskScheduler :=
  if (0 <=? cylinder) && (cylinder <=? max_cylinder self) then
    (Returns tt,
     mkDiskScheduler (initial_position self) (current_position self)
       (max_cylinder self) (requests self ++ [cylinder]))
  else
    (Raises (ValueError ("Request must be between 0 and "
                           ++ Py.str (max_cylinder self))),
     self).

(** The three statements every visit runs:
    [sequence.append(p); seek_operations.append(abs(p - current)); current = p]. *)
Definition visit (st : list Z * list Z * Z) (p : Z) : list Z * list Z * Z :=
  let '(sequence, seek_operations, current) := st in
  (sequence ++ [p], seek_operations ++ [Z.abs (p - current)], p).

Definition fcfs (self : DiskScheduler) : outcome (list Z * Z) :=
  let '(sequence, seek_operations, _) :=
    fold_left visit (requests self) ([], [], initial_position self) in
  let total_seek := Py.sum seek_operations in
  Returns (sequence, total_seek).

(** The [while remaining:] loop of [sstf]. *)
Equations? sstf_while (remaining : list Z) (st : list Z * list Z * Z)
  : outcome (list Z * list Z * Z) by wf (List.length remaining) lt :=
  sstf_while [] st := Returns st;
  sstf_while (r :: rs) (sequence, seek_operations, current)
    with Py.min (r :: rs) (fun x => Z.abs (x - current)) := {
    | Raises e := Raises e
    | Returns closest
        with inspect (Py.remove closest (r :: rs)) := {
        | exist _ (Raises e) _ := Raises e
        | exist _ (Returns remaining') Hrm :=
            sstf_while remaining' (visit (sequence, seek_operations, current) closest) } }.
Proof.
  assert (G : forall x l l', Py.remove x l = Returns l' ->
                             List.length l = S (List.length l')).
  { clear. intros x l. induction l as [|y l IH]; intros l' H; simpl in H.
    - discriminate.
    - destruct (y =? x).
      + inversion H; subst. reflexivity.
      + destruct (Py.remove x l) as [l''|] eqn:E; simpl in H; [|discriminate].
        inversion H; subst. simpl. f_equal. apply IH. reflexivity. }
  apply (G _ (r :: rs)) in Hrm. simpl in Hrm. lia.
Qed.

Definition sstf (self : DiskScheduler) : outcome (list Z * Z) :=
  let current := initial_position self in
  let remaining := requests self in
  st <- sstf_while remaining ([], [], current) ;;
  let '(sequence, seek_operations, _) := st in
  let total_seek := Py.sum seek_operations in
  Returns (sequence, total_seek).

(** The head position held in [current] by a loop state. *)
Definition head (st : list Z * list Z * Z) : Z := snd st.

(** [scan(self, direction='right')]: every direction other than
    ['right'] takes the [else] branch. *)
Definition scan (direction : string) (self : DiskScheduler) : outcome (list Z * Z) :=
  let current := initial_position self in
  let remaining := Py.sorted (requests self) in
  let st := ([], [], current) in
  let '(sequence, seek_operations, _) :=
    if is_right direction then
      let right := filter (fun r => r >=? current) remaining in
      let left := Py.sorted_reverse (filter (fun r => r <? current) remaining) in
      let st := fold_left visit right st in
      let st :=
        if Py.truthy right && negb (head st =? max_cylinder self)
        then visit st (max_cylinder self) else st in
      fold_left visit left st
    else
      let left := Py.sorted_reverse (filter (fun r => r <=? current) remaining) in
      let right := Py.sorted (filter (fun r => r >? current) remaining) in
      let st := fold_left visit left st in
      let st :=
        if Py.truthy left && negb (head st =? 0)
        then visit st 0 else st in
      fold_left visit right st
  in
  let total_seek := Py.sum seek_operations in
  Returns (sequence, total_seek).

Definition cscan (self : DiskScheduler) : outcome (list Z * Z) :=
  let current := initial_position self in
  let remaining := Py.sorted (requests self) in
  let right := filter (fun r => r >=? current) remaining in
  let left := filter (fun r => r <? current) remaining in
  let st := fold_left visit right ([], [], current) in
  let st := if Py.truthy right then visit st (max_cylinder self) else st in
  let st := visit st 0 in
  let '(sequence, seek_operations, _) := fold_left visit left st in
  let total_seek := Py.sum seek_operations in
  Returns (sequence, total_seek).

End diskscheduler.

(** ** [ui.py] *)

Module ui.

Record DiskScheduler : Type := mkDiskScheduler {
  initial_position : Z;
  max_cylinder : Z;
  requests : list Z
}.

(** [__init__(self, initial_position, max_cylinder=200)] *)
Definition init (initial_position max_cylinder : Z) : outcome DiskScheduler :=
  Returns (mkDiskScheduler initial_position max_cylinder []).

Definition add_request (cylinder : Z) (self : DiskScheduler)
  : outcome unit * DiskScheduler :=
  if (0 <=? cylinder) && (cylinder <=? max_cylinder self) then
    (Returns tt,
     mkDiskScheduler (initial_position self) (max_cylinder self)
       (requests self ++ [cylinder]))
  else
    (Raises (ValueError ("Request must be between 0 and "
                           ++ Py.str (max_cylinder self))),
     self).

(** [fcfs] copies the request list and walks the copy. *)
Definition fcfs (self : DiskScheduler) : outcome (list Z * Z) :=
  let sequence := requests self in
  let current := initial_position self in
  let '(seek_operations, _) :=
    fold_left
      (fun '(seek_operations, current) request =>
         (seek_operations ++ [Z.abs (request - current)], request))
      sequence ([], current) in
  let total_seek := Py.sum seek_operations in
  Returns (sequence, total_seek).

(** The [while remaining:] loop of [sstf]; the state is
    [(sequence, total_seek, current)]. *)
Equations? sstf_loop (remaining : list Z) (st : list Z * Z * Z)
  : outcome (list Z * Z * Z) by wf (List.length remaining) lt :=
  sstf_loop [] st := Returns st;
  sstf_loop (r :: rs) (sequence, total_seek, current)
    with Py.min (r :: rs) (fun x => Z.abs (x - current)) := {
    | Raises e := Raises e
    | Returns closest
        with inspect (Py.remove closest (r :: rs)) := {
        | exist _ (Raises e) _ := Raises e
        | exist _ (Returns remaining') Hrm :=
            let seek := Z.abs (closest - current) in
            sstf_loop remaining' (sequence ++ [closest], total_seek + seek, closest) } }.
Proof.
  assert (G : forall x l l', Py.remove x l = Returns l' ->
                             List.length l = S (List.length l')).
  { clear. intros x l. induction l as [|y l IH]; intros l' H; simpl in H.
    - discriminate.
    - destruct (y =? x).
      + inversion H; subst. reflexivity.
      + destruct (Py.remove x l) as [l''|] eqn:E; simpl in H; [|discriminate].
        inversion H; subst. simpl. f_equal. apply IH. reflexivity. }
  apply (G _ (r :: rs)) in Hrm. simpl in Hrm. lia.
Qed.

Definition sstf (self : DiskScheduler) : outcome (list Z * Z) :=
  if negb (Py.truthy (requests self)) then Returns ([], 0)
  else
    let current := initial_position self in
    let remaining := requests self in
    st <- sstf_loop remaining ([], 0, current) ;;
    let '(sequence, total_seek, _) := st in
    Returns (sequence, total_seek).

(** [sequence.append(req); total_seek += abs(req - current); current = req] *)
Definition visit (st : list Z * Z * Z) (req : Z) : list Z * Z * Z :=
  let '(sequence, total_seek, current) := st in
  (sequence ++ [req], total_seek + Z.abs (req - current), req).

Definition head (st : list Z * Z * Z) : Z := snd st.

Definition scan (direction : string) (self : DiskScheduler) : outcome (list Z * Z) :=
  if negb (Py.truthy (requests self)) then Returns ([], 0)
  else
    let current := initial_position self in
    let remaining := Py.sorted (requests self) in
    let st := ([], 0, current) in
    let '(sequence, total_seek, _) :=
      if is_right direction then
        let right := filter (fun r => r >=? current) remaining in
        let left := Py.sorted_reverse (filter (fun r => r <? current) remaining) in
        let st := fold_left visit right st in
        let st :=
          if Py.truthy right && negb (head st =? max_cylinder self)
          then visit st (max_cylinder self) else st in
        fold_left visit left st
      else
        let left := Py.sorted_reverse (filter (fun r => r <=? current) remaining) in
        let right := Py.sorted (filter (fun r => r >? current) remaining) in
        let st := fold_left visit left st in
        let st :=
          if Py.truthy left && negb (head st =? 0)
          then visit st 0 else st in
        fold_left visit right st
    in
    Returns (sequence, total_seek).

Definition cscan (self : DiskScheduler) : outcome (list Z * Z) :=
  if negb (Py.truthy (requests self)) then Returns ([], 0)
  else
    let current := initial_position self in
    let remaining := Py.sorted (requests self) in
    let right := filter (fun r => r >=? current) remaining in
    let left := filter (fun r => r <? current) remaining in
    let st := fold_left visit right ([], 0, current) in
    let st := if Py.truthy right then visit st (max_cylinder self) else st in
    let st := visit st 0 in
    let '(sequence, total_seek, _) := fold_left visit left st in
    Returns (sequence, total_seek).

End ui.

(** ** The callers: [main] of [diskscheduler.py] *)

Module diskscheduler_main.

(** The body of the request loop:
    [try: scheduler.add_request(int(req))] /
    [except ValueError as e: print(e)].
    [line] is what [int(req)] gives for the line typed; the state pairs
    the scheduler with the messages printed so far. *)
Definition enter (st : diskscheduler.DiskScheduler * list string) (line : outcome Z)
  : diskscheduler.DiskScheduler * list string :=
  let '(scheduler, printed) := st in
  match line with
  | Raises (ValueError msg) => (scheduler, printed ++ [msg])
  | Returns cylinder =>
      match diskscheduler.add_request cylinder scheduler with
      | (Returns _, scheduler') => (scheduler', printed)
      | (Raises (ValueError msg), scheduler') => (scheduler', printed ++ [msg])
      end
  end.

(** The loop over the lines typed before the empty one. *)
Definition read_requests (scheduler : diskscheduler.DiskScheduler)
           (lines : list (outcome Z)) : diskscheduler.DiskScheduler * list string :=
  fold_left enter lines (scheduler, []).

(** The [if choice == '1': ... elif ... else:] chain; [None] is the
    branch that prints "Invalid choice" and returns.  [direction] is the
    answer to the direction prompt, already lowered. *)
Definition run_choice (choice direction : string)
           (scheduler : diskscheduler.DiskScheduler) : option (outcome (list Z * Z)) :=
  if String.eqb choice "1" then Some (diskscheduler.fcfs scheduler)
  else if String.eqb choice "2" then Some (diskscheduler.sstf scheduler)
  else if String.eqb choice "3" then Some (diskscheduler.scan direction scheduler)
  else if String.eqb choice "4" then Some (diskscheduler.cscan scheduler)
  else None.

(** [main] up to the point where [sequence, total_seek] are bound. *)
Definition simulate (initial_pos max_cylinder : Z) (lines : list (outcome Z))
           (choice direction : string) : option (outcome (list Z * Z)) :=
  match diskscheduler.init initial_pos max_cylinder with
  | Raises e => Some (Raises e)
  | Returns scheduler =>
      let '(scheduler, _) := read_requests scheduler lines in
      run_choice choice direction scheduler
  end.

End diskscheduler_main.

(** ** The callers: [main] of [ui.py] *)

Module ui_main.

(** The options of the algorithm select box. *)
Inductive algorithm : Type := FCFS | SSTF | SCAN | CSCAN.

(** What a press on "Run Simulation" shows. *)
Inductive report : Type :=
| NoRequests
| SimulationError (shown : string)
| Results (sequence : list Z) (total_seek : Z).

(** [for req in st.session_state.requests: scheduler.add_request(req)]:
    the first exception leaves the loop. *)
Fixpoint add_all (requests : list Z) (scheduler : ui.DiskScheduler)
  : outcome ui.DiskScheduler :=
  match requests with
  | [] => Returns scheduler
  | req :: rest =>
      match ui.add_request req scheduler with
      | (Returns _, scheduler') => add_all rest scheduler'
      | (Raises e, _) => Raises e
      end
  end.

Definition run (alg : algorithm) (scan_direction : string)
           (scheduler : ui.DiskScheduler) : outcome (list Z * Z) :=
  match alg with
  | FCFS => ui.fcfs scheduler
  | SSTF => ui.sstf scheduler
  | SCAN => ui.scan scan_direction scheduler
  | CSCAN => ui.cscan scheduler
  end.

(** The "Run Simulation" branch up to the average
    [total_seek/len(sequence)], whose division raises on an empty
    sequence; every exception of the [try] block is shown as
    "Simulation Error: ...". *)
Definition run_simulation (initial_pos max_cylinder : Z) (requests : list Z)
           (alg : algorithm) (scan_direction : string) : report :=
  if negb (Py.truthy requests) then NoRequests
  else
    match (scheduler <- ui.init initial_pos max_cylinder ;;
           scheduler <- add_all requests scheduler ;;
           run alg scan_direction scheduler) with
    | Raises (ValueError msg) => SimulationError ("Simulation Error: " ++ msg)
    | Returns (sequence, total_seek) =>
        match sequence with
        | [] => SimulationError "Simulation Error: division by zero"
        | _ :: _ => Results sequence total_seek
        end
    end.

End ui_main.

(** ** Notions the properties are stated with *)

(** The seek distance of a walk: the sum of [|position[i] - position[i-1]|]
    along [seq], with the position [h] before the first visit. *)
Fixpoint replay (h : Z) (seq : list Z) : Z :=
  match seq with
  | [] => 0
  | p :: seq' => Z.abs (p - h) + replay p seq'
  end.

(** The individual seek distances of that walk. *)
Fixpoint steps (h : Z) (seq : list Z) : list Z :=
  match seq with
  | [] => []
  | p :: seq' => Z.abs (p - h) :: steps p seq'
  end.

(** Where the head stands after walking [seq] from [h]. *)
Definition head_after (h : Z) (seq : list Z) : Z :=
  fold_left (fun _ p => p) seq h.

(** [seq] visits [a] and then, immediately, [b]. *)
Definition adjacent (a b : Z) (seq : list Z) : Prop :=
  exists pre post, seq = pre ++ a :: b :: post.

(** A cylinder of the addressable range. *)
Definition in_range (M r : Z) : Prop := 0 <= r <= M.

(** Shortest seek first, in the words of the specification: from the
    requests still pending (kept in their order) the next one served has
    the least distance to the head, and among equidistant ones it is the
    first met in the pending list. *)
Inductive nearest_first : Z -> list Z -> list Z -> Prop :=
| nf_done (cur : Z) : nearest_first cur [] []
| nf_pick (cur c : Z) (before after order : list Z) :
    (forall y, In y before -> Z.abs (c - cur) < Z.abs (y - cur)) ->
    (forall y, In y after -> Z.abs (c - cur) <= Z.abs (y - cur)) ->
    nearest_first c (before ++ after) order ->
    nearest_first cur (before ++ c :: after) (c :: order).

(** The visits of [scan], read off its code: the first side, the
    boundary when the guard lets it in, then the other side. *)
Definition scan_sequence (direction : string) (h M : Z) (R : list Z) : list Z :=
  let remaining := Py.sorted R in
  if is_right direction then
    let right := filter (fun r => r >=? h) remaining in
    let left := Py.sorted_reverse (filter (fun r => r <? h) remaining) in
    right
      ++ (if Py.truthy right && negb (head_after h right =? M) then [M] else [])
      ++ left
  else
    let left := Py.sorted_reverse (filter (fun r => r <=? h) remaining) in
    let right := Py.sorted (filter (fun r => r >? h) remaining) in
    left
      ++ (if Py.truthy left && negb (head_after h left =? 0) then [0] else [])
      ++ right.

(** The visits of [cscan] once past the guard on an empty request list. *)
Definition cscan_sequence (h M : Z) (R : list Z) : list Z :=
  let remaining := Py.sorted R in
  let right := filter (fun r => r >=? h) remaining in
  let left := filter (fun r => r <? h) remaining in
  right ++ (if Py.truthy right then [M] else []) ++ [0] ++ left.

(** The call returns a schedule, and its sequence and total satisfy [P]. *)
Definition schedules (P : list Z -> Z -> Prop) (call : outcome (list Z * Z)) : Prop :=
  exists seq total, call = Returns (seq, total) /\ P seq total.

(** The cylinders among the typed lines that pass the gate of a scheduler
    with range [M]: the lines that convert to an integer of [0, M]. *)
Definition accepted (M : Z) (lines : list (outcome Z)) : list Z :=
  flat_map
    (fun line =>
       match line with
       | Returns c => if (0 <=? c) && (c <=? M) then [c] else []
       | Raises _ => []
       end)
    lines.

(** One turn of the [while remaining:] loop, once [min] and [remove]
    are known to succeed. *)
Ltac loop_turn H turn :=
  unfold inspect;
  match goal with
  | |- context [exist _ ?rm eq_refl] =>
      generalize (@eq_refl _ rm); generalize rm at 2 4
  end;
  let o := fresh "o" in
  let Ho := fresh "Ho" in
  intros o Ho;
  destruct o;
  [ rewrite turn; rewrite H in Ho; injection Ho as <-; reflexivity
  | exfalso; rewrite H in Ho; discriminate Ho ].

(** ** Facts about the built-ins *)

Section Builtins.

Lemma fold_add_shift (l : list Z) (a : Z) :
  fold_left Z.add l a = a + fold_left Z.add l 0.
Proof.
  revert a. induction l as [|x l IH]; intros a; simpl.
  - lia.
  - rewrite (IH (a + x)), (IH x). lia.
Qed.

Lemma sum_cons (x : Z) (l : list Z) : Py.sum (x :: l) = x + Py.sum l.
Proof. unfold Py.sum. simpl. apply fold_add_shift. Qed.

Lemma sum_app (l1 l2 : list Z) : Py.sum (l1 ++ l2) = Py.sum l1 + Py.sum l2.
Proof.
  induction l1 as [|x l1 IH]; simpl.
  - reflexivity.
  - rewrite !sum_cons, IH. lia.
Qed.

Lemma sum_steps (h : Z) (seq : list Z) : Py.sum (steps h seq) = replay h seq.
Proof.
  revert h. induction seq as [|p seq IH]; intros h; simpl.
  - reflexivity.
  - rewrite sum_cons, IH. reflexivity.
Qed.

Lemma replay_app (h : Z) (s1 s2 : list Z) :
  replay h (s1 ++ s2) = replay h s1 + replay (head_after h s1) s2.
Proof.
  revert h. induction s1 as [|p s1 IH]; intros h; simpl.
  - reflexivity.
  - rewrite IH. unfold head_after. simpl. lia.
Qed.

Lemma steps_app (h : Z) (s1 s2 : list Z) :
  steps h (s1 ++ s2) = steps h s1 ++ steps (head_after h s1) s2.
Proof.
  revert h. induction s1 as [|p s1 IH]; intros h; simpl.
  - reflexivity.
  - rewrite IH. reflexivity.
Qed.

Lemma head_after_app (h : Z) (s1 s2 : list Z) :
  head_after h (s1 ++ s2) = head_after (head_after h s1) s2.
Proof. unfold head_after. apply fold_left_app. Qed.

Lemma replay_nonneg (h : Z) (seq : list Z) : 0 <= replay h seq.
Proof.
  revert h. induction seq as [|p seq IH]; intros h; simpl.
  - lia.
  - specialize (IH p). lia.
Qed.

(** *** Sorting *)

Lemma insert_perm (x : Z) (l : list Z) : Permutation (x :: l) (Py.insert x l).
Proof.
  induction l as [|y l IH]; simpl.
  - reflexivity.
  - destruct (x <? y).
    + reflexivity.
    + rewrite perm_swap. constructor. exact IH.
Qed.

Lemma insert_sorted (x : Z) (l : list Z) :
  Sorted Z.le l -> Sorted Z.le (Py.insert x l).
Proof.
  induction 1 as [|y l Hs IH Hd]; simpl.
  - repeat constructor.
  - destruct (x <? y) eqn:E.
    + apply Z.ltb_lt in E. repeat constructor; trivial. lia.
    + apply Z.ltb_ge in E. constructor; [exact IH|].
      destruct l as [|z l]; simpl.
      * constructor. exact E.
      * destruct (x <? z); constructor; trivial.
        inversion Hd; trivial.
Qed.

Lemma sort_loop_perm (l acc : list Z) :
  Permutation (l ++ acc) (fold_left (fun acc x => Py.insert x acc) l acc).
Proof.
  revert acc. induction l as [|x l IH]; intros acc; simpl.
  - reflexivity.
  - rewrite <- IH. rewrite <- insert_perm. apply Permutation_middle.
Qed.

Lemma sort_loop_sorted (l acc : list Z) :
  Sorted Z.le acc -> Sorted Z.le (fold_left (fun acc x => Py.insert x acc) l acc).
Proof.
  revert acc. induction l as [|x l IH]; intros acc H; simpl.
  - exact H.
  - apply IH, insert_sorted, H.
Qed.

Lemma sorted_perm (l : list Z) : Permutation l (Py.sorted l).
Proof.
  unfold Py.sorted. rewrite <- sort_loop_perm, app_nil_r. reflexivity.
Qed.

Lemma sorted_ascending (l : list Z) : Sorted Z.le (Py.sorted l).
Proof. apply sort_loop_sorted. constructor. Qed.

Lemma sorted_In (x : Z) (l : list Z) : In x (Py.sorted l) <-> In x l.
Proof.
  split; apply Permutation_in; [symmetry|]; apply sorted_perm.
Qed.

Lemma sorted_nil_iff (l : list Z) : Py.sorted l = [] <-> l = [].
Proof.
  split; intros H.
  - apply Permutation_nil. rewrite <- H. symmetry. apply sorted_perm.
  - subst. reflexivity.
Qed.

Lemma insert_desc_perm (x : Z) (l : list Z) :
  Permutation (x :: l) (Py.insert_desc x l).
Proof.
  induction l as [|y l IH]; simpl.
  - reflexivity.
  - destruct (x >? y).
    + reflexivity.
    + rewrite perm_swap. constructor. exact IH.
Qed.

Lemma insert_desc_sorted (x : Z) (l : list Z) :
  Sorted Z.ge l -> Sorted Z.ge (Py.insert_desc x l).
Proof.
  induction 1 as [|y l Hs IH Hd]; simpl.
  - repeat constructor.
  - destruct (x >? y) eqn:E.
    + apply Z.gtb_lt in E. repeat constructor; trivial. lia.
    + assert (x <= y) by (rewrite Z.gtb_ltb in E; apply Z.ltb_ge in E; exact E).
      constructor; [exact IH|].
      destruct l as [|z l]; simpl.
      * constructor. lia.
      * destruct (x >? z); constructor; [lia|].
        inversion Hd; trivial.
Qed.

Lemma sorted_reverse_perm (l : list Z) : Permutation l (Py.sorted_reverse l).
Proof.
  unfold Py.sorted_reverse.
  assert (G : forall l acc,
             Permutation (l ++ acc)
               (fold_left (fun acc x => Py.insert_desc x acc) l acc)).
  { clear. intros l. induction l as [|x l IH]; intros acc; simpl.
    - reflexivity.
    - rewrite <- IH, <- insert_desc_perm. apply Permutation_middle. }
  rewrite <- G, app_nil_r. reflexivity.
Qed.

Lemma sorted_reverse_descending (l : list Z) : Sorted Z.ge (Py.sorted_reverse l).
Proof.
  unfold Py.sorted_reverse.
  assert (G : forall l acc, Sorted Z.ge acc ->
             Sorted Z.ge (fold_left (fun acc x => Py.insert_desc x acc) l acc)).
  { clear. intros l. induction l as [|x l IH]; intros acc H; simpl.
    - exact H.
    - apply IH, insert_desc_sorted, H. }
  apply G. constructor.
Qed.

(** *** Filtering *)

Lemma filter_all (p : Z -> bool) (l : list Z) :
  (forall x, In x l -> p x = true) -> filter p l = l.
Proof.
  induction l as [|y l IH]; intros H; simpl.
  - reflexivity.
  - rewrite (H y (or_introl eq_refl)). f_equal. apply IH.
    intros x Hx. apply H. right. exact Hx.
Qed.

Lemma filter_none (p : Z -> bool) (l : list Z) :
  (forall x, In x l -> p x = false) <-> filter p l = [].
Proof.
  induction l as [|y l IH]; simpl.
  - split; [reflexivity | intros _ x []].
  - split.
    + intros H. rewrite (H y (or_introl eq_refl)). apply IH.
      intros x Hx. apply H. right. exact Hx.
    + destruct (p y) eqn:E; [discriminate|].
      intros H x [->|Hx]; [exact E|]. apply IH; assumption.
Qed.

Lemma truthy_filter (p : Z -> bool) (l : list Z) :
  Py.truthy (filter p l) = true <-> exists x, In x l /\ p x = true.
Proof.
  split.
  - destruct (filter p l) as [|x f] eqn:E; [discriminate|]. intros _.
    exists x. apply filter_In. rewrite E. left. reflexivity.
  - intros (x & Hx & Hp).
    destruct (filter p l) as [|y f] eqn:E; [|reflexivity].
    apply filter_none with (x := x) in E; [congruence | exact Hx].
Qed.

End Builtins.

(** ** The loops *)

Section Loops.

Lemma cli_visit_fold (l seq ops : list Z) (cur : Z) :
  fold_left diskscheduler.visit l (seq, ops, cur)
  = (seq ++ l, ops ++ steps cur l, head_after cur l).
Proof.
  revert seq ops cur. induction l as [|p l IH]; intros seq ops cur; simpl.
  - rewrite !app_nil_r. reflexivity.
  - rewrite IH, <- !app_assoc. reflexivity.
Qed.

Lemma ui_visit_fold (l seq : list Z) (total cur : Z) :
  fold_left ui.visit l (seq, total, cur)
  = (seq ++ l, total + replay cur l, head_after cur l).
Proof.
  revert seq total cur. induction l as [|p l IH]; intros seq total cur; simpl.
  - rewrite app_nil_r, Z.add_0_r. reflexivity.
  - rewrite IH, <- app_assoc, Z.add_assoc. reflexivity.
Qed.

Lemma ui_fcfs_fold (l ops : list Z) (cur : Z) :
  fold_left
    (fun '(seek_operations, current) request =>
       (seek_operations ++ [Z.abs (request - current)], request))
    l (ops, cur)
  = (ops ++ steps cur l, head_after cur l).
Proof.
  revert ops cur. induction l as [|p l IH]; intros ops cur; simpl.
  - rewrite app_nil_r. reflexivity.
  - rewrite IH, <- app_assoc. reflexivity.
Qed.

Lemma cli_sstf_while_step (r : Z) (rs seq ops : list Z) (cur : Z) (rem' : list Z) :
  Py.remove (Py.min_from (fun x => Z.abs (x - cur)) r rs) (r :: rs) = Returns rem' ->
  diskscheduler.sstf_while (r :: rs) (seq, ops, cur)
  = diskscheduler.sstf_while rem'
      (diskscheduler.visit (seq, ops, cur) (Py.min_from (fun x => Z.abs (x - cur)) r rs)).
Proof.
  intros H. rewrite diskscheduler.sstf_while_equation_2. cbn [Py.min].
  rewrite diskscheduler.sstf_while_clause_2_equation_1.
  loop_turn H diskscheduler.sstf_while_clause_2_clause_2_equation_1.
Qed.

Lemma ui_sstf_loop_step (r : Z) (rs seq : list Z) (total cur : Z) (rem' : list Z) :
  Py.remove (Py.min_from (fun x => Z.abs (x - cur)) r rs) (r :: rs) = Returns rem' ->
  ui.sstf_loop (r :: rs) (seq, total, cur)
  = ui.sstf_loop rem'
      (ui.visit (seq, total, cur) (Py.min_from (fun x => Z.abs (x - cur)) r rs)).
Proof.
  intros H. rewrite ui.sstf_loop_equation_2. cbn [Py.min].
  rewrite ui.sstf_loop_clause_2_equation_1.
  loop_turn H ui.sstf_loop_clause_2_clause_2_equation_1.
Qed.

End Loops.

(** ** Shortest seek first *)

Section NearestFirst.

(** [min] splits the pending list around the request it picks. *)
Lemma min_from_split (key : Z -> Z) (l : list Z) (best : Z) :
  exists before after,
    best :: l = before ++ Py.min_from key best l :: after
    /\ (forall y, In y before -> key (Py.min_from key best l) < key y)
    /\ (forall y, In y after -> key (Py.min_from key best l) <= key y).
Proof.
  revert best. induction l as [|y l IH]; intros best; simpl.
  - exists [], []. repeat split; intros ? [].
  - destruct (key y <? key best) eqn:E.
    + apply Z.ltb_lt in E.
      destruct (IH y) as (b & a & Heq & Hb & Ha).
      exists (best :: b), a. split; [simpl; f_equal; exact Heq|].
      split; [|exact Ha].
      intros z [<-|Hz]; [|apply Hb, Hz].
      destruct b as [|b0 b]; simpl in Heq; injection Heq as Hy Hl.
      * rewrite <- Hy. exact E.
      * subst b0. specialize (Hb y (or_introl eq_refl)). lia.
    + apply Z.ltb_ge in E.
      destruct (IH best) as (b & a & Heq & Hb & Ha).
      destruct b as [|b0 b]; simpl in Heq; injection Heq as Hbest Hl.
      * exists [], (y :: l). split; [simpl; f_equal; exact Hbest|].
        split; [intros ? []|].
        rewrite <- Hbest. intros z [<-|Hz]; [exact E|].
        rewrite Hbest. apply Ha. rewrite <- Hl. exact Hz.
      * subst b0. exists (best :: y :: b), a.
        split; [simpl; do 2 f_equal; exact Hl|].
        split; [|exact Ha].
        pose proof (Hb best (or_introl eq_refl)) as Hlt.
        intros z [<-|[<-|Hz]]; [exact Hlt | lia | apply Hb; right; exact Hz].
Qed.

Lemma remove_split (c : Z) (before after : list Z) :
  ~ In c before ->
  Py.remove c (before ++ c :: after) = Returns (before ++ after).
Proof.
  induction before as [|y before IH]; intros Hn; simpl.
  - rewrite Z.eqb_refl. reflexivity.
  - destruct (y =? c) eqn:E.
    + apply Z.eqb_eq in E. exfalso. apply Hn. left. exact E.
    + rewrite IH; [reflexivity|]. intros Hc. apply Hn. right. exact Hc.
Qed.

Lemma nearest_first_length (cur : Z) (pending order : list Z) :
  nearest_first cur pending order -> List.length order = List.length pending.
Proof.
  induction 1 as [|cur c before after order Hb Ha Hn IH]; simpl.
  - reflexivity.
  - rewrite IH, !length_app. simpl. lia.
Qed.

Lemma nearest_first_perm (cur : Z) (pending order : list Z) :
  nearest_first cur pending order -> Permutation pending order.
Proof.
  induction 1 as [|cur c before after order Hb Ha Hn IH].
  - constructor.
  - rewrite <- IH. symmetry. apply Permutation_middle.
Qed.

(** Two ways of cutting one list around an element either agree or each
    cut element lies on the far side of the other cut. *)
Lemma split_compare (b1 a1 b2 a2 : list Z) (c1 c2 : Z) :
  b1 ++ c1 :: a1 = b2 ++ c2 :: a2 ->
  (b1 = b2 /\ c1 = c2 /\ a1 = a2)
  \/ (In c1 b2 /\ In c2 a1)
  \/ (In c2 b1 /\ In c1 a2).
Proof.
  revert b2. induction b1 as [|x b1 IH]; intros b2 H; destruct b2 as [|y b2];
    simpl in H; injection H as Hx Hl.
  - left. subst. repeat split.
  - right. left. subst. split; [left; reflexivity|].
    apply in_or_app. right. left. reflexivity.
  - right. right. subst. split; [left; reflexivity|].
    apply in_or_app. right. left. reflexivity.
  - destruct (IH _ Hl) as [(-> & -> & ->)|[[H1 H2]|[H1 H2]]].
    + left. subst. repeat split.
    + right. left. split; [right|]; assumption.
    + right. right. split; [right|]; assumption.
Qed.

(** The specification leaves no choice: the order is determined. *)
Lemma nearest_first_unique (cur : Z) (pending o1 o2 : list Z) :
  nearest_first cur pending o1 -> nearest_first cur pending o2 -> o1 = o2.
Proof.
  intros H1. revert o2.
  induction H1 as [|cur c before after order Hb Ha Hn IH]; intros o2 H2.
  - inversion H2 as [|? ? b ? ? ? ? ? Heq]; [reflexivity|].
    destruct b; discriminate.
  - inversion H2 as [|? c' b' a' order' Hb' Ha' Hn' Hcur Heq]; subst.
    + destruct before; discriminate.
    + symmetry in Heq.
      destruct (split_compare _ _ _ _ _ _ Heq) as [(-> & -> & ->)|[[X Y]|[X Y]]].
      * f_equal. apply IH. exact Hn'.
      * specialize (Hb' _ X). specialize (Ha _ Y). lia.
      * specialize (Hb _ X). specialize (Ha' _ Y). lia.
Qed.

(** The loop of [diskscheduler.py] follows the specification and always
    runs to its end. *)
Lemma cli_sstf_while_spec (n : nat) :
  forall (pending seq ops : list Z) (cur : Z),
    List.length pending = n ->
    exists order,
      diskscheduler.sstf_while pending (seq, ops, cur)
      = Returns (seq ++ order, ops ++ steps cur order, head_after cur order)
      /\ nearest_first cur pending order.
Proof.
  induction n as [|n IH]; intros pending seq ops cur Hlen.
  - destruct pending; [|discriminate]. exists [].
    rewrite diskscheduler.sstf_while_equation_1, !app_nil_r.
    split; [reflexivity | constructor].
  - destruct pending as [|r rs]; [discriminate|].
    destruct (min_from_split (fun x => Z.abs (x - cur)) rs r)
      as (b & a & Heq & Hb & Ha).
    set (c := Py.min_from (fun x => Z.abs (x - cur)) r rs) in *.
    assert (Hrm : Py.remove c (r :: rs) = Returns (b ++ a)).
    { rewrite Heq. apply remove_split. intros Hin.
      specialize (Hb _ Hin). lia. }
    rewrite (cli_sstf_while_step _ _ _ _ _ _ Hrm). fold c.
    destruct (IH (b ++ a) (seq ++ [c]) (ops ++ [Z.abs (c - cur)]) c)
      as (order & Hrun & Hnf).
    { apply (f_equal (@List.length Z)) in Heq.
      rewrite length_app in *. simpl in *. lia. }
    exists (c :: order). split.
    + simpl. rewrite Hrun, <- !app_assoc. reflexivity.
    + rewrite Heq. constructor; assumption.
Qed.

Lemma ui_sstf_loop_spec (n : nat) :
  forall (pending seq : list Z) (total cur : Z),
    List.length pending = n ->
    exists order,
      ui.sstf_loop pending (seq, total, cur)
      = Returns (seq ++ order, total + replay cur order, head_after cur order)
      /\ nearest_first cur pending order.
Proof.
  induction n as [|n IH]; intros pending seq total cur Hlen.
  - destruct pending; [|discriminate]. exists [].
    rewrite ui.sstf_loop_equation_1, app_nil_r. simpl. rewrite Z.add_0_r.
    split; [reflexivity | constructor].
  - destruct pending as [|r rs]; [discriminate|].
    destruct (min_from_split (fun x => Z.abs (x - cur)) rs r)
      as (b & a & Heq & Hb & Ha).
    set (c := Py.min_from (fun x => Z.abs (x - cur)) r rs) in *.
    assert (Hrm : Py.remove c (r :: rs) = Returns (b ++ a)).
    { rewrite Heq. apply remove_split. intros Hin.
      specialize (Hb _ Hin). lia. }
    rewrite (ui_sstf_loop_step _ _ _ _ _ _ Hrm). fold c.
    destruct (IH (b ++ a) (seq ++ [c]) (total + Z.abs (c - cur)) c)
      as (order & Hrun & Hnf).
    { apply (f_equal (@List.length Z)) in Heq.
      rewrite length_app in *. simpl in *. lia. }
    exists (c :: order). split.
    + simpl. rewrite Hrun, <- app_assoc, Z.add_assoc. reflexivity.
    + rewrite Heq. constructor; assumption.
Qed.

End NearestFirst.

(** ** What each policy returns *)

Section Policies.

Lemma cli_walk (h : Z) (seq : list Z) :
  (let '(sequence, seek_operations, _) :=
     fold_left diskscheduler.visit seq ([], [], h) in
   Returns (sequence, Py.sum seek_operations))
  = Returns (seq, replay h seq).
Proof. rewrite cli_visit_fold. simpl. rewrite sum_steps. reflexivity. Qed.

Lemma ui_walk (h : Z) (seq : list Z) :
  (let '(sequence, total_seek, _) := fold_left ui.visit seq ([], 0, h) in
   Returns (sequence, total_seek))
  = Returns (seq, replay h seq).
Proof. rewrite ui_visit_fold. reflexivity. Qed.

(** A guarded boundary visit is a walk over zero or one cylinder. *)
Lemma cli_guarded_visit (c : bool) (b : Z) (st : list Z * list Z * Z) :
  (if c then diskscheduler.visit st b else st)
  = fold_left diskscheduler.visit (if c then [b] else []) st.
Proof. destruct c; reflexivity. Qed.

Lemma ui_guarded_visit (c : bool) (b : Z) (st : list Z * Z * Z) :
  (if c then ui.visit st b else st)
  = fold_left ui.visit (if c then [b] else []) st.
Proof. destruct c; reflexivity. Qed.

Lemma cli_head_fold (h : Z) (seq : list Z) :
  diskscheduler.head (fold_left diskscheduler.visit seq ([], [], h))
  = head_after h seq.
Proof. rewrite cli_visit_fold. reflexivity. Qed.

Lemma ui_head_fold (h : Z) (seq : list Z) :
  ui.head (fold_left ui.visit seq ([], 0, h)) = head_after h seq.
Proof. rewrite ui_visit_fold. reflexivity. Qed.

Lemma cli_fcfs_eq (s : diskscheduler.DiskScheduler) :
  diskscheduler.fcfs s
  = Returns (diskscheduler.requests s,
             replay (diskscheduler.initial_position s) (diskscheduler.requests s)).
Proof. unfold diskscheduler.fcfs. apply cli_walk. Qed.

Lemma ui_fcfs_eq (s : ui.DiskScheduler) :
  ui.fcfs s
  = Returns (ui.requests s, replay (ui.initial_position s) (ui.requests s)).
Proof.
  unfold ui.fcfs. rewrite ui_fcfs_fold. simpl. rewrite sum_steps. reflexivity.
Qed.

Lemma cli_sstf_eq (s : diskscheduler.DiskScheduler) :
  exists order,
    diskscheduler.sstf s
    = Returns (order, replay (diskscheduler.initial_position s) order)
    /\ nearest_first (diskscheduler.initial_position s)
         (diskscheduler.requests s) order.
Proof.
  destruct (cli_sstf_while_spec _ (diskscheduler.requests s) [] []
              (diskscheduler.initial_position s) eq_refl) as (order & Hrun & Hnf).
  exists order. split; [|exact Hnf].
  unfold diskscheduler.sstf. rewrite Hrun. simpl. rewrite sum_steps. reflexivity.
Qed.

Lemma ui_sstf_eq (s : ui.DiskScheduler) :
  exists order,
    ui.sstf s = Returns (order, replay (ui.initial_position s) order)
    /\ nearest_first (ui.initial_position s) (ui.requests s) order.
Proof.
  destruct (ui_sstf_loop_spec _ (ui.requests s) [] 0
              (ui.initial_position s) eq_refl) as (order & Hrun & Hnf).
  exists order. split; [|exact Hnf].
  unfold ui.sstf. destruct (ui.requests s) as [|r rs] eqn:E.
  - inversion Hnf as [|? ? b ? ? ? ? ? Heq]; [reflexivity | destruct b; discriminate].
  - cbn [Py.truthy negb]. rewrite Hrun. reflexivity.
Qed.

Lemma cli_scan_eq (direction : string) (s : diskscheduler.DiskScheduler) :
  diskscheduler.scan direction s
  = Returns (scan_sequence direction (diskscheduler.initial_position s)
               (diskscheduler.max_cylinder s) (diskscheduler.requests s),
             replay (diskscheduler.initial_position s)
               (scan_sequence direction (diskscheduler.initial_position s)
                  (diskscheduler.max_cylinder s) (diskscheduler.requests s))).
Proof.
  unfold diskscheduler.scan, scan_sequence.
  destruct (is_right direction);
    rewrite cli_head_fold, cli_guarded_visit, <- !fold_left_app;
    apply cli_walk.
Qed.

Lemma ui_scan_eq (direction : string) (s : ui.DiskScheduler) :
  ui.scan direction s
  = Returns (scan_sequence direction (ui.initial_position s)
               (ui.max_cylinder s) (ui.requests s),
             replay (ui.initial_position s)
               (scan_sequence direction (ui.initial_position s)
                  (ui.max_cylinder s) (ui.requests s))).
Proof.
  unfold ui.scan, scan_sequence.
  destruct (ui.requests s) as [|r rs] eqn:E.
  - destruct (is_right direction); reflexivity.
  - cbn [Py.truthy negb].
    destruct (is_right direction);
      rewrite ui_head_fold, ui_guarded_visit, <- !fold_left_app;
      apply ui_walk.
Qed.

Lemma cli_cscan_eq (s : diskscheduler.DiskScheduler) :
  diskscheduler.cscan s
  = Returns (cscan_sequence (diskscheduler.initial_position s)
               (diskscheduler.max_cylinder s) (diskscheduler.requests s),
             replay (diskscheduler.initial_position s)
               (cscan_sequence (diskscheduler.initial_position s)
                  (diskscheduler.max_cylinder s) (diskscheduler.requests s))).
Proof.
  unfold diskscheduler.cscan, cscan_sequence.
  rewrite cli_guarded_visit.
  change (diskscheduler.visit ?st 0) with (fold_left diskscheduler.visit [0] st).
  rewrite <- !fold_left_app. apply cli_walk.
Qed.

Lemma ui_cscan_eq (s : ui.DiskScheduler) :
  ui.requests s <> [] ->
  ui.cscan s
  = Returns (cscan_sequence (ui.initial_position s)
               (ui.max_cylinder s) (ui.requests s),
             replay (ui.initial_position s)
               (cscan_sequence (ui.initial_position s)
                  (ui.max_cylinder s) (ui.requests s))).
Proof.
  intros Hne. unfold ui.cscan, cscan_sequence.
  destruct (ui.requests s) as [|r rs] eqn:E; [contradiction|].
  cbn [Py.truthy negb].
  rewrite ui_guarded_visit.
  change (ui.visit ?st 0) with (fold_left ui.visit [0] st).
  rewrite <- !fold_left_app. apply ui_walk.
Qed.

End Policies.

(** ** Empty request list *)

Section EmptyRequests.

(** Every policy but [cscan] of [diskscheduler.py] answers an empty
    request list with the empty schedule. *)
Lemma empty_requests_schedule (h cur M : Z) (direction : string) :
  diskscheduler.fcfs (diskscheduler.mkDiskScheduler h cur M []) = Returns ([], 0)
  /\ diskscheduler.sstf (diskscheduler.mkDiskScheduler h cur M []) = Returns ([], 0)
  /\ diskscheduler.scan direction (diskscheduler.mkDiskScheduler h cur M [])
     = Returns ([], 0)
  /\ ui.fcfs (ui.mkDiskScheduler h M []) = Returns ([], 0)
  /\ ui.sstf (ui.mkDiskScheduler h M []) = Returns ([], 0)
  /\ ui.scan direction (ui.mkDiskScheduler h M []) = Returns ([], 0)
  /\ ui.cscan (ui.mkDiskScheduler h M []) = Returns ([], 0).
Proof.
  repeat split; try reflexivity.
  unfold diskscheduler.scan. destruct (is_right direction); reflexivity.
Qed.

(** [cscan] of [diskscheduler.py] has no guard on an empty list: the
    wrap to cylinder 0 is always taken. *)
Lemma cli_cscan_empty (h cur M : Z) :
  diskscheduler.cscan (diskscheduler.mkDiskScheduler h cur M [])
  = Returns ([0], Z.abs (0 - h)).
Proof. reflexivity. Qed.

(** C1 (fails on the code): with head 50, range 200 and no request,
    [cscan] of [diskscheduler.py] returns the one-visit schedule [[0]]
    with total seek 50 instead of the empty schedule with total 0, while
    [cscan] of [ui.py] returns the empty schedule. *)
Theorem cscan_empty_requests_diverge :
  diskscheduler.cscan (diskscheduler.mkDiskScheduler 50 50 200 [])
  = Returns ([0], 50)
  /\ ui.cscan (ui.mkDiskScheduler 50 200 []) = Returns ([], 0).
Proof. split; reflexivity. Qed.

End EmptyRequests.

(** ** The boundary visits of C-SCAN *)

Section CScanBoundary.

(** C2 as stated is false: with head 50, range 200 and the single
    request 10 nothing lies at or above the head, and neither engine
    visits cylinder 200 before wrapping to 0. *)
Lemma cscan_left_only_skips_max :
  ~ (exists seq total,
        diskscheduler.cscan (diskscheduler.mkDiskScheduler 50 50 200 [10])
        = Returns (seq, total)
        /\ adjacent 200 0 seq)
  /\ ~ (exists seq total,
           ui.cscan (ui.mkDiskScheduler 50 200 [10]) = Returns (seq, total)
           /\ adjacent 200 0 seq).
Proof.
  split; intros (seq & total & H & pre & post & E);
    vm_compute in H; injection H as <- <-;
    destruct pre as [|a [|b [|c pre]]]; discriminate E.
Qed.

Lemma cscan_sequence_right (h M : Z) (R : list Z) :
  (exists r, In r R /\ h <= r) ->
  cscan_sequence h M R
  = filter (fun r => r >=? h) (Py.sorted R)
      ++ M :: 0 :: filter (fun r => r <? h) (Py.sorted R).
Proof.
  intros (r & Hin & Hr). unfold cscan_sequence.
  replace (Py.truthy (filter (fun r => r >=? h) (Py.sorted R))) with true;
    [reflexivity|].
  symmetry. apply truthy_filter. exists r. split.
  - apply sorted_In, Hin.
  - apply Z.geb_le. lia.
Qed.

Lemma cscan_sequence_left (h M : Z) (R : list Z) :
  (forall r, In r R -> r < h) ->
  cscan_sequence h M R = 0 :: Py.sorted R.
Proof.
  intros Hall. unfold cscan_sequence.
  replace (filter (fun r => r >=? h) (Py.sorted R)) with (@nil Z).
  - simpl. f_equal. apply filter_all. intros x Hx.
    apply Z.ltb_lt, Hall, sorted_In, Hx.
  - symmetry. apply filter_none. intros x Hx.
    apply sorted_In, Hall in Hx.
    destruct (x >=? h) eqn:E; [|reflexivity]. apply Z.geb_le in E. lia.
Qed.

(** C2 (amended): for a non-empty request list, when some request lies
    at or above the initial head position the [cscan] sequence is the
    requests at or above the head in ascending order, then [M], then
    [0], then the requests below the head in ascending order, so [M] is
    immediately followed by [0], and the total counts both the move to
    [M] and the move from [M] to [0]; when every request lies below the
    head, the sequence is [0] followed by all requests in ascending
    order, the total counts the move from the head to [0], and in a
    valid configuration [M] is not visited at all. *)
Theorem cscan_boundary_visits (h cur M : Z) (R : list Z) :
  R <> [] ->
  let right := filter (fun r => r >=? h) (Py.sorted R) in
  let left := filter (fun r => r <? h) (Py.sorted R) in
  ((exists r, In r R /\ h <= r) ->
   let seq := right ++ M :: 0 :: left in
   let total :=
     replay h right + Z.abs (M - head_after h right) + Z.abs (0 - M)
     + replay 0 left in
   diskscheduler.cscan (diskscheduler.mkDiskScheduler h cur M R)
   = Returns (seq, total)
   /\ ui.cscan (ui.mkDiskScheduler h M R) = Returns (seq, total)
   /\ adjacent M 0 seq)
  /\ ((forall r, In r R -> r < h) ->
      let seq := 0 :: Py.sorted R in
      let total := Z.abs (0 - h) + replay 0 (Py.sorted R) in
      diskscheduler.cscan (diskscheduler.mkDiskScheduler h cur M R)
      = Returns (seq, total)
      /\ ui.cscan (ui.mkDiskScheduler h M R) = Returns (seq, total)
      /\ (0 < M -> h <= M -> ~ In M seq)).
Proof.
  intros Hne right left. split.
  - intros Hex seq total.
    assert (Htotal : replay h seq = total).
    { unfold seq, total. rewrite replay_app. simpl. lia. }
    rewrite cli_cscan_eq, (ui_cscan_eq (ui.mkDiskScheduler h M R) Hne). simpl.
    rewrite (cscan_sequence_right h M R Hex). fold right left seq.
    rewrite Htotal. repeat split. exists right, left. reflexivity.
  - intros Hall seq total.
    rewrite cli_cscan_eq, (ui_cscan_eq (ui.mkDiskScheduler h M R) Hne). simpl.
    rewrite (cscan_sequence_left h M R Hall). fold seq.
    repeat split. intros HM Hh [H0|Hin]; [lia|].
    apply sorted_In, Hall in Hin. lia.
Qed.

Lemma cscan_boundary_visits_witness :
  (diskscheduler.cscan
     (diskscheduler.mkDiskScheduler 50 50 200 [82; 170; 43; 140; 24; 16; 190])
   = Returns ([82; 140; 170; 190; 200; 0; 16; 24; 43], 393)
   /\ adjacent 200 0 [82; 140; 170; 190; 200; 0; 16; 24; 43])
  /\ ui.cscan (ui.mkDiskScheduler 50 200 [10]) = Returns ([0; 10], 60).
Proof.
  split.
  - destruct (cscan_boundary_visits 50 50 200 [82; 170; 43; 140; 24; 16; 190])
      as [Hright _]; [discriminate|].
    destruct Hright as (Hcli & _ & Hadj).
    + exists 82. split; [left; reflexivity | lia].
    + split; [exact Hcli | exact Hadj].
  - destruct (cscan_boundary_visits 50 50 200 [10]) as [_ Hleft]; [discriminate|].
    destruct Hleft as (_ & Hui & _).
    + intros r [<-|[]]. lia.
    + exact Hui.
Defined.

End CScanBoundary.

(** ** Errors the engine does not raise *)

Section NoValidation.

(** No policy ever raises, whatever the scheduler holds. *)
Lemma policies_return (direction : string)
      (s : diskscheduler.DiskScheduler) (u : ui.DiskScheduler) :
  (exists res, diskscheduler.fcfs s = Returns res)
  /\ (exists res, diskscheduler.sstf s = Returns res)
  /\ (exists res, diskscheduler.scan direction s = Returns res)
  /\ (exists res, diskscheduler.cscan s = Returns res)
  /\ (exists res, ui.fcfs u = Returns res)
  /\ (exists res, ui.sstf u = Returns res)
  /\ (exists res, ui.scan direction u = Returns res)
  /\ (exists res, ui.cscan u = Returns res).
Proof.
  repeat split.
  - rewrite cli_fcfs_eq. eexists. reflexivity.
  - destruct (cli_sstf_eq s) as (order & -> & _). eexists. reflexivity.
  - rewrite cli_scan_eq. eexists. reflexivity.
  - rewrite cli_cscan_eq. eexists. reflexivity.
  - rewrite ui_fcfs_eq. eexists. reflexivity.
  - destruct (ui_sstf_eq u) as (order & -> & _). eexists. reflexivity.
  - rewrite ui_scan_eq. eexists. reflexivity.
  - destruct (ui.requests u) as [|r rs] eqn:E.
    + unfold ui.cscan. rewrite E. eexists. reflexivity.
    + rewrite ui_cscan_eq; [eexists; reflexivity | rewrite E; discriminate].
Qed.

Lemma not_right_is_left (direction : string) :
  direction <> "right"%string -> is_right direction = false.
Proof. intros H. apply String.eqb_neq. exact H. Qed.

(** C3 as stated is false: called with the direction ['up'], [scan]
    raises nothing in either engine. *)
Lemma scan_up_does_not_raise :
  ~ (exists e,
        diskscheduler.scan "up"
          (diskscheduler.mkDiskScheduler 50 50 200 [82; 170; 43; 140; 24; 16; 190])
        = Raises e)
  /\ ~ (exists e,
           ui.scan "up" (ui.mkDiskScheduler 50 200 [82; 170; 43; 140; 24; 16; 190])
           = Raises e).
Proof. split; intros (e & H); vm_compute in H; discriminate H. Qed.

(** C3 (amended): [scan] tests the direction against ['right'] only;
    every other value, ['left'] or not, takes the same branch, so the
    call returns exactly the schedule of direction ['left'] and raises
    no error. *)
Theorem scan_other_direction_is_left (direction : string)
        (s : diskscheduler.DiskScheduler) (u : ui.DiskScheduler) :
  direction <> "right"%string ->
  diskscheduler.scan direction s = diskscheduler.scan "left" s
  /\ ui.scan direction u = ui.scan "left" u
  /\ (exists res, diskscheduler.scan direction s = Returns res)
  /\ (exists res, ui.scan direction u = Returns res).
Proof.
  intros H. apply not_right_is_left in H.
  destruct (policies_return direction s u) as (_ & _ & Hs & _ & _ & _ & Hu & _).
  unfold diskscheduler.scan, ui.scan in *. rewrite H in *.
  repeat split; assumption.
Qed.

Lemma scan_other_direction_is_left_witness :
  diskscheduler.scan "up"
    (diskscheduler.mkDiskScheduler 50 50 200 [82; 170; 43; 140; 24; 16; 190])
  = diskscheduler.scan "left"
      (diskscheduler.mkDiskScheduler 50 50 200 [82; 170; 43; 140; 24; 16; 190]).
Proof.
  apply (scan_other_direction_is_left "up"
           (diskscheduler.mkDiskScheduler 50 50 200 [82; 170; 43; 140; 24; 16; 190])
           (ui.mkDiskScheduler 50 200 [82; 170; 43; 140; 24; 16; 190])).
  discriminate.
Defined.

(** C4 as stated is false: with head 300 outside the range [0, 200]
    the constructor raises nothing, and neither does any policy on the
    scheduler it builds once the request 10 is added. *)
Lemma head_out_of_range_is_accepted :
  ~ ((exists e, diskscheduler.init 300 200 = Raises e)
     \/ (exists e, diskscheduler.fcfs (diskscheduler.mkDiskScheduler 300 300 200 [10])
                   = Raises e)
     \/ (exists e, diskscheduler.sstf (diskscheduler.mkDiskScheduler 300 300 200 [10])
                   = Raises e)
     \/ (exists e, diskscheduler.scan "right"
                     (diskscheduler.mkDiskScheduler 300 300 200 [10])
                   = Raises e)
     \/ (exists e, diskscheduler.cscan (diskscheduler.mkDiskScheduler 300 300 200 [10])
                   = Raises e))
  /\ ~ ((exists e, ui.init 300 200 = Raises e)
        \/ (exists e, ui.fcfs (ui.mkDiskScheduler 300 200 [10]) = Raises e)
        \/ (exists e, ui.sstf (ui.mkDiskScheduler 300 200 [10]) = Raises e)
        \/ (exists e, ui.scan "right" (ui.mkDiskScheduler 300 200 [10]) = Raises e)
        \/ (exists e, ui.cscan (ui.mkDiskScheduler 300 200 [10]) = Raises e)).
Proof.
  split; intros H; repeat destruct H as [H|H]; destruct H as (e & H);
    vm_compute in H; discriminate H.
Qed.

(** C4 (amended): for an initial head position outside [0, M] the
    constructor succeeds and stores the position as given, with an
    empty request list, and every policy on a scheduler holding that
    position returns a schedule; no error is raised. *)
Theorem head_position_is_not_validated (h M : Z) (R : list Z) (direction : string) :
  ~ in_range M h ->
  diskscheduler.init h M = Returns (diskscheduler.mkDiskScheduler h h M [])
  /\ ui.init h M = Returns (ui.mkDiskScheduler h M [])
  /\ (exists res, diskscheduler.fcfs (diskscheduler.mkDiskScheduler h h M R) = Returns res)
  /\ (exists res, diskscheduler.sstf (diskscheduler.mkDiskScheduler h h M R) = Returns res)
  /\ (exists res, diskscheduler.scan direction (diskscheduler.mkDiskScheduler h h M R)
                  = Returns res)
  /\ (exists res, diskscheduler.cscan (diskscheduler.mkDiskScheduler h h M R) = Returns res)
  /\ (exists res, ui.fcfs (ui.mkDiskScheduler h M R) = Returns res)
  /\ (exists res, ui.sstf (ui.mkDiskScheduler h M R) = Returns res)
  /\ (exists res, ui.scan direction (ui.mkDiskScheduler h M R) = Returns res)
  /\ (exists res, ui.cscan (ui.mkDiskScheduler h M R) = Returns res).
Proof.
  intros _. split; [reflexivity|]. split; [reflexivity|].
  apply policies_return.
Qed.

Lemma head_position_is_not_validated_witness :
  ~ in_range 200 300
  /\ diskscheduler.init 300 200
     = Returns (diskscheduler.mkDiskScheduler 300 300 200 []).
Proof.
  assert (H : ~ in_range 200 300) by (unfold in_range; lia).
  split; [exact H|].
  apply (head_position_is_not_validated 300 200 [10] "right" H).
Defined.

End NoValidation.

(** ** Cost and order of the schedules *)

Section Schedules.

(** C5: each policy of each engine returns a sequence together with
    the seek distance obtained by replaying that sequence from the
    initial head position. *)
Theorem total_seek_is_replay (h cur M : Z) (R : list Z) (direction : string) :
  (exists seq, diskscheduler.fcfs (diskscheduler.mkDiskScheduler h cur M R)
               = Returns (seq, replay h seq))
  /\ (exists seq, diskscheduler.sstf (diskscheduler.mkDiskScheduler h cur M R)
                  = Returns (seq, replay h seq))
  /\ (exists seq, diskscheduler.scan direction (diskscheduler.mkDiskScheduler h cur M R)
                  = Returns (seq, replay h seq))
  /\ (exists seq, diskscheduler.cscan (diskscheduler.mkDiskScheduler h cur M R)
                  = Returns (seq, replay h seq))
  /\ (exists seq, ui.fcfs (ui.mkDiskScheduler h M R) = Returns (seq, replay h seq))
  /\ (exists seq, ui.sstf (ui.mkDiskScheduler h M R) = Returns (seq, replay h seq))
  /\ (exists seq, ui.scan direction (ui.mkDiskScheduler h M R)
                  = Returns (seq, replay h seq))
  /\ (exists seq, ui.cscan (ui.mkDiskScheduler h M R) = Returns (seq, replay h seq)).
Proof.
  repeat split.
  - rewrite cli_fcfs_eq. eexists. reflexivity.
  - destruct (cli_sstf_eq (diskscheduler.mkDiskScheduler h cur M R))
      as (order & -> & _).
    eexists. reflexivity.
  - rewrite cli_scan_eq. eexists. reflexivity.
  - rewrite cli_cscan_eq. eexists. reflexivity.
  - rewrite ui_fcfs_eq. eexists. reflexivity.
  - destruct (ui_sstf_eq (ui.mkDiskScheduler h M R)) as (order & -> & _).
    eexists. reflexivity.
  - rewrite ui_scan_eq. eexists. reflexivity.
  - destruct R as [|r rs].
    + exists []. reflexivity.
    + rewrite ui_cscan_eq; [eexists; reflexivity | discriminate].
Qed.

(** C6: [fcfs] returns the request list itself, in insertion order,
    and the seek distance of walking it from the initial head position. *)
Theorem fcfs_keeps_insertion_order (h cur M : Z) (R : list Z) :
  diskscheduler.fcfs (diskscheduler.mkDiskScheduler h cur M R)
  = Returns (R, replay h R)
  /\ ui.fcfs (ui.mkDiskScheduler h M R) = Returns (R, replay h R).
Proof. split; [apply cli_fcfs_eq | apply ui_fcfs_eq]. Qed.

(** C7: [sstf] returns an order that serves every request once
    ([|R|] visits, a rearrangement of [R]) and that is built by taking,
    from the requests still pending, one nearest to the head, the first
    such in the pending list when several are equally near. *)
Theorem sstf_serves_nearest_first (h cur M : Z) (R : list Z) :
  exists order,
    diskscheduler.sstf (diskscheduler.mkDiskScheduler h cur M R)
    = Returns (order, replay h order)
    /\ ui.sstf (ui.mkDiskScheduler h M R) = Returns (order, replay h order)
    /\ nearest_first h R order
    /\ List.length order = List.length R
    /\ Permutation R order.
Proof.
  destruct (cli_sstf_eq (diskscheduler.mkDiskScheduler h cur M R))
    as (order & Hc & Hnf).
  destruct (ui_sstf_eq (ui.mkDiskScheduler h M R)) as (order' & Hu & Hnf').
  simpl in *.
  rewrite (nearest_first_unique _ _ _ _ Hnf' Hnf) in Hu.
  exists order. repeat split; trivial.
  - apply (nearest_first_length _ _ _ Hnf).
  - apply (nearest_first_perm _ _ _ Hnf).
Qed.

End Schedules.

(** ** The boundary visit of SCAN *)

Section ScanBoundary.

Lemma guard_right (h M : Z) (R : list Z) :
  Py.truthy (filter (fun r => r >=? h) (Py.sorted R))
  && negb (head_after h (filter (fun r => r >=? h) (Py.sorted R)) =? M) = true
  <-> (exists r, In r R /\ h <= r)
      /\ head_after h (filter (fun r => r >=? h) (Py.sorted R)) <> M.
Proof.
  rewrite andb_true_iff, negb_true_iff, Z.eqb_neq, truthy_filter.
  apply and_iff_compat_r.
  split; intros (r & Hin & Hr); exists r.
  - apply (proj1 (sorted_In _ _)) in Hin. apply Z.geb_le in Hr.
    split; [exact Hin | lia].
  - split; [apply sorted_In, Hin | apply Z.geb_le; lia].
Qed.

Lemma guard_left (h : Z) (R : list Z) :
  Py.truthy (Py.sorted_reverse (filter (fun r => r <=? h) (Py.sorted R)))
  && negb (head_after h
             (Py.sorted_reverse (filter (fun r => r <=? h) (Py.sorted R))) =? 0)
  = true
  <-> (exists r, In r R /\ r <= h)
      /\ head_after h
           (Py.sorted_reverse (filter (fun r => r <=? h) (Py.sorted R))) <> 0.
Proof.
  rewrite andb_true_iff, negb_true_iff, Z.eqb_neq.
  apply and_iff_compat_r.
  pose proof (sorted_reverse_perm (filter (fun r => r <=? h) (Py.sorted R))) as P.
  split.
  - destruct (Py.sorted_reverse _) as [|x l] eqn:E; [discriminate|]. intros _.
    assert (Hx : In x (filter (fun r => r <=? h) (Py.sorted R))).
    { apply (Permutation_in _ (Permutation_sym P)). left. reflexivity. }
    apply filter_In in Hx. destruct Hx as [Hin Hx].
    exists x. split; [apply sorted_In, Hin | apply Z.leb_le, Hx].
  - intros (r & Hin & Hr).
    assert (Hx : In r (Py.sorted_reverse (filter (fun r => r <=? h) (Py.sorted R)))).
    { apply (Permutation_in _ P), filter_In.
      split; [apply sorted_In, Hin | apply Z.leb_le, Hr]. }
    destruct (Py.sorted_reverse _); [destruct Hx | reflexivity].
Qed.

Lemma replay_guarded (h b : Z) (visits : bool) (first second : list Z) :
  replay h (first ++ (if visits then [b] else []) ++ second)
  = replay h first
    + (if visits
       then Z.abs (b - head_after h first) + replay b second
       else replay (head_after h first) second).
Proof. rewrite replay_app. destruct visits; simpl; lia. Qed.

(** C8: [scan] puts the boundary ([M] going right, [0] going left)
    into the sequence, and the move to it into the cost, exactly when
    some request lies on the side served first (at or beyond the initial
    head position in that direction) and the head does not already stand
    on the boundary once that side is served; otherwise the other side
    follows the first one directly. *)
Theorem scan_visits_boundary_iff (h cur M : Z) (R : list Z) :
  (let right := filter (fun r => r >=? h) (Py.sorted R) in
   let left := Py.sorted_reverse (filter (fun r => r <? h) (Py.sorted R)) in
   exists visits : bool,
     (visits = true
      <-> (exists r, In r R /\ h <= r) /\ head_after h right <> M)
     /\ let seq := right ++ (if visits then [M] else []) ++ left in
        let total :=
          replay h right
          + (if visits
             then Z.abs (M - head_after h right) + replay M left
             else replay (head_after h right) left) in
        diskscheduler.scan "right" (diskscheduler.mkDiskScheduler h cur M R)
        = Returns (seq, total)
        /\ ui.scan "right" (ui.mkDiskScheduler h M R) = Returns (seq, total))
  /\ (let left := Py.sorted_reverse (filter (fun r => r <=? h) (Py.sorted R)) in
      let right := Py.sorted (filter (fun r => r >? h) (Py.sorted R)) in
      exists visits : bool,
        (visits = true
         <-> (exists r, In r R /\ r <= h) /\ head_after h left <> 0)
        /\ let seq := left ++ (if visits then [0] else []) ++ right in
           let total :=
             replay h left
             + (if visits
                then Z.abs (0 - head_after h left) + replay 0 right
                else replay (head_after h left) right) in
           diskscheduler.scan "left" (diskscheduler.mkDiskScheduler h cur M R)
           = Returns (seq, total)
           /\ ui.scan "left" (ui.mkDiskScheduler h M R) = Returns (seq, total)).
Proof.
  split.
  - intros right left.
    exists (Py.truthy right && negb (head_after h right =? M)).
    split; [apply guard_right|].
    intros seq total.
    assert (Htotal : replay h seq = total) by apply replay_guarded.
    rewrite cli_scan_eq, ui_scan_eq. simpl.
    change (scan_sequence "right" h M R) with seq.
    rewrite Htotal. split; reflexivity.
  - intros left right.
    exists (Py.truthy left && negb (head_after h left =? 0)).
    split; [apply guard_left|].
    intros seq total.
    assert (Htotal : replay h seq = total) by apply replay_guarded.
    rewrite cli_scan_eq, ui_scan_eq. simpl.
    change (scan_sequence "left" h M R) with seq.
    rewrite Htotal. split; reflexivity.
Qed.

End ScanBoundary.

(** ** The insertion gate *)

Section AddRequest.

Lemma range_test (M c : Z) :
  (0 <=? c) && (c <=? M) = true <-> in_range M c.
Proof.
  unfold in_range. rewrite andb_true_iff, !Z.leb_le. reflexivity.
Qed.

(** C9: [add_request] appends a cylinder of [0, M] to the request
    list and changes nothing else; for a cylinder outside [0, M] it
    raises [ValueError] (the specification's [InvalidRequest]) with the
    range in its message and leaves the scheduler, its request list
    included, as it was. *)
Theorem add_request_gate (c h cur M : Z) (R : list Z) :
  (in_range M c ->
   diskscheduler.add_request c (diskscheduler.mkDiskScheduler h cur M R)
   = (Returns tt, diskscheduler.mkDiskScheduler h cur M (R ++ [c]))
   /\ ui.add_request c (ui.mkDiskScheduler h M R)
      = (Returns tt, ui.mkDiskScheduler h M (R ++ [c])))
  /\ (~ in_range M c ->
      diskscheduler.add_request c (diskscheduler.mkDiskScheduler h cur M R)
      = (Raises (ValueError ("Request must be between 0 and " ++ Py.str M)),
         diskscheduler.mkDiskScheduler h cur M R)
      /\ ui.add_request c (ui.mkDiskScheduler h M R)
         = (Raises (ValueError ("Request must be between 0 and " ++ Py.str M)),
            ui.mkDiskScheduler h M R)).
Proof.
  unfold diskscheduler.add_request, ui.add_request. simpl.
  split; intros H.
  - apply range_test in H. rewrite H. split; reflexivity.
  - destruct ((0 <=? c) && (c <=? M)) eqn:E.
    + apply range_test in E. contradiction.
    + split; reflexivity.
Qed.

Lemma add_request_gate_witness :
  diskscheduler.add_request 190 (diskscheduler.mkDiskScheduler 50 50 200 [82; 170])
  = (Returns tt, diskscheduler.mkDiskScheduler 50 50 200 [82; 170; 190])
  /\ ui.add_request 201 (ui.mkDiskScheduler 50 200 [82; 170])
     = (Raises (ValueError "Request must be between 0 and 200"),
        ui.mkDiskScheduler 50 200 [82; 170]).
Proof.
  split.
  - apply (add_request_gate 190 50 50 200 [82; 170]). unfold in_range. lia.
  - apply (add_request_gate 201 50 50 200 [82; 170]). unfold in_range. lia.
Defined.

End AddRequest.

(** ** The two engines side by side *)

Section Engines.

(** C10: on a non-empty request list the class of [diskscheduler.py]
    and the class of [ui.py] return the same sequence and the same total
    seek for [fcfs], [sstf], [scan] in either direction and [cscan];
    this holds for every head position and every request values, those
    of a valid configuration included. *)
Theorem engines_agree (h cur M : Z) (R : list Z) (direction : string) :
  R <> [] ->
  diskscheduler.fcfs (diskscheduler.mkDiskScheduler h cur M R)
  = ui.fcfs (ui.mkDiskScheduler h M R)
  /\ diskscheduler.sstf (diskscheduler.mkDiskScheduler h cur M R)
     = ui.sstf (ui.mkDiskScheduler h M R)
  /\ diskscheduler.scan direction (diskscheduler.mkDiskScheduler h cur M R)
     = ui.scan direction (ui.mkDiskScheduler h M R)
  /\ diskscheduler.cscan (diskscheduler.mkDiskScheduler h cur M R)
     = ui.cscan (ui.mkDiskScheduler h M R).
Proof.
  intros Hne. repeat split.
  - rewrite cli_fcfs_eq, ui_fcfs_eq. reflexivity.
  - destruct (cli_sstf_eq (diskscheduler.mkDiskScheduler h cur M R))
      as (order & -> & Hnf).
    destruct (ui_sstf_eq (ui.mkDiskScheduler h M R)) as (order' & -> & Hnf').
    simpl in *. rewrite (nearest_first_unique _ _ _ _ Hnf Hnf'). reflexivity.
  - rewrite cli_scan_eq, ui_scan_eq. reflexivity.
  - rewrite cli_cscan_eq, (ui_cscan_eq (ui.mkDiskScheduler h M R) Hne). reflexivity.
Qed.

Lemma engines_agree_witness :
  diskscheduler.cscan
    (diskscheduler.mkDiskScheduler 50 50 200 [82; 170; 43; 140; 24; 16; 190])
  = ui.cscan (ui.mkDiskScheduler 50 200 [82; 170; 43; 140; 24; 16; 190]).
Proof.
  apply (engines_agree 50 50 200 [82; 170; 43; 140; 24; 16; 190] "right").
  discriminate.
Defined.

End Engines.


(** ** The scenario of the specification *)

Section Scenario.

(** Head at 50, cylinders up to 200, requests 82 170 43 140 24 16 190. *)
Example scenario_cli :
  let s := diskscheduler.mkDiskScheduler 50 50 200 [82; 170; 43; 140; 24; 16; 190] in
  diskscheduler.fcfs s = Returns ([82; 170; 43; 140; 24; 16; 190], 642)
  /\ diskscheduler.sstf s = Returns ([43; 24; 16; 82; 140; 170; 190], 208)
  /\ diskscheduler.scan "right" s = Returns ([82; 140; 170; 190; 200; 43; 24; 16], 334)
  /\ diskscheduler.scan "left" s = Returns ([43; 24; 16; 0; 82; 140; 170; 190], 240)
  /\ diskscheduler.cscan s = Returns ([82; 140; 170; 190; 200; 0; 16; 24; 43], 393).
Proof. repeat split; vm_compute; reflexivity. Qed.

Example scenario_ui :
  let u := ui.mkDiskScheduler 50 200 [82; 170; 43; 140; 24; 16; 190] in
  ui.fcfs u = Returns ([82; 170; 43; 140; 24; 16; 190], 642)
  /\ ui.sstf u = Returns ([43; 24; 16; 82; 140; 170; 190], 208)
  /\ ui.scan "right" u = Returns ([82; 140; 170; 190; 200; 43; 24; 16], 334)
  /\ ui.scan "left" u = Returns ([43; 24; 16; 0; 82; 140; 170; 190], 240)
  /\ ui.cscan u = Returns ([82; 140; 170; 190; 200; 0; 16; 24; 43], 393).
Proof. repeat split; vm_compute; reflexivity. Qed.

(** Two requests at the same distance from the head: the one added first
    is served first, on either side. *)
Example sstf_tie :
  diskscheduler.sstf (diskscheduler.mkDiskScheduler 50 50 200 [60; 40])
  = Returns ([60; 40], 30)
  /\ diskscheduler.sstf (diskscheduler.mkDiskScheduler 50 50 200 [40; 60])
     = Returns ([40; 60], 30)
  /\ ui.sstf (ui.mkDiskScheduler 50 200 [60; 40]) = Returns ([60; 40], 30)
  /\ ui.sstf (ui.mkDiskScheduler 50 200 [40; 60]) = Returns ([40; 60], 30).
Proof. repeat split; vm_compute; reflexivity. Qed.

(** A request on the boundary itself: [scan] adds no second visit of
    [M], [cscan] does. *)
Example request_on_boundary :
  diskscheduler.scan "right" (diskscheduler.mkDiskScheduler 50 50 200 [200; 10])
  = Returns ([200; 10], 340)
  /\ diskscheduler.cscan (diskscheduler.mkDiskScheduler 50 50 200 [200; 10])
     = Returns ([200; 200; 0; 10], 360).
Proof. repeat split; vm_compute; reflexivity. Qed.

End Scenario.

(** ** Every request is served once *)

Section ServedOnce.

Lemma filter_split_ge_lt (h : Z) (l : list Z) :
  Permutation l (filter (fun r => r >=? h) l ++ filter (fun r => r <? h) l).
Proof.
  induction l as [|x l IH]; simpl.
  - constructor.
  - destruct (x >=? h) eqn:E1; destruct (x <? h) eqn:E2.
    + apply Z.geb_le in E1. apply Z.ltb_lt in E2. lia.
    + simpl. constructor. exact IH.
    + rewrite <- Permutation_middle. constructor. exact IH.
    + rewrite Z.geb_leb in E1. apply Z.leb_gt in E1. apply Z.ltb_ge in E2. lia.
Qed.

Lemma filter_split_le_gt (h : Z) (l : list Z) :
  Permutation l (filter (fun r => r <=? h) l ++ filter (fun r => r >? h) l).
Proof.
  induction l as [|x l IH]; simpl.
  - constructor.
  - destruct (x <=? h) eqn:E1; destruct (x >? h) eqn:E2.
    + apply Z.leb_le in E1. rewrite Z.gtb_ltb in E2. apply Z.ltb_lt in E2. lia.
    + simpl. constructor. exact IH.
    + rewrite <- Permutation_middle. constructor. exact IH.
    + apply Z.leb_gt in E1. rewrite Z.gtb_ltb in E2. apply Z.ltb_ge in E2. lia.
Qed.

(** The visits of [scan] are the requests and at most the boundary of
    the direction taken. *)
Lemma scan_sequence_perm (direction : string) (h M : Z) (R : list Z) :
  exists boundary,
    (boundary = [] \/ boundary = [if is_right direction then M else 0])
    /\ Permutation (boundary ++ R) (scan_sequence direction h M R).
Proof.
  unfold scan_sequence. destruct (is_right direction).
  - set (right := filter (fun r => r >=? h) (Py.sorted R)).
    set (left := filter (fun r => r <? h) (Py.sorted R)).
    exists (if Py.truthy right && negb (head_after h right =? M) then [M] else []).
    split; [destruct (_ && _); auto|].
    set (b := if Py.truthy right && negb (head_after h right =? M) then [M] else []).
    transitivity (b ++ right ++ left).
    + apply Permutation_app_head.
      transitivity (Py.sorted R); [apply sorted_perm | apply filter_split_ge_lt].
    + transitivity (b ++ right ++ Py.sorted_reverse left).
      * apply Permutation_app_head, Permutation_app_head, sorted_reverse_perm.
      * rewrite !app_assoc. apply Permutation_app_tail, Permutation_app_comm.
  - set (left := filter (fun r => r <=? h) (Py.sorted R)).
    set (right := filter (fun r => r >? h) (Py.sorted R)).
    exists (if Py.truthy (Py.sorted_reverse left)
               && negb (head_after h (Py.sorted_reverse left) =? 0)
            then [0] else []).
    split; [destruct (_ && _); auto|].
    set (down := Py.sorted_reverse left).
    set (b := if Py.truthy down && negb (head_after h down =? 0) then [0] else []).
    transitivity (b ++ left ++ right).
    + apply Permutation_app_head.
      transitivity (Py.sorted R); [apply sorted_perm | apply filter_split_le_gt].
    + transitivity (b ++ down ++ Py.sorted right).
      * apply Permutation_app_head, Permutation_app;
          [apply sorted_reverse_perm | apply sorted_perm].
      * rewrite !app_assoc. apply Permutation_app_tail, Permutation_app_comm.
Qed.

Lemma cscan_sequence_perm (h M : Z) (R : list Z) :
  exists boundary,
    (boundary = [0] \/ boundary = [M; 0])
    /\ Permutation (boundary ++ R) (cscan_sequence h M R).
Proof.
  unfold cscan_sequence.
  set (right := filter (fun r => r >=? h) (Py.sorted R)).
  set (left := filter (fun r => r <? h) (Py.sorted R)).
  exists ((if Py.truthy right then [M] else []) ++ [0]).
  split; [destruct (Py.truthy right); auto|].
  set (b := (if Py.truthy right then [M] else []) ++ [0]).
  transitivity (b ++ right ++ left).
  - apply Permutation_app_head.
    transitivity (Py.sorted R); [apply sorted_perm | apply filter_split_ge_lt].
  - change (right ++ (if Py.truthy right then [M] else []) ++ [0] ++ left)
      with (right ++ (if Py.truthy right then [M] else []) ++ ([0] ++ left)).
    rewrite (app_assoc _ [0] left). fold b.
    rewrite !app_assoc. apply Permutation_app_tail, Permutation_app_comm.
Qed.

(** X1: whatever the direction, [scan] serves each request exactly as
    often as it was added: its sequence is a rearrangement of the request
    list, with at most one visit of the boundary of the direction taken
    ([M] for ['right'], [0] otherwise) added. *)
Theorem scan_rearranges_requests (direction : string) (h cur M : Z) (R : list Z) :
  exists seq total boundary,
    diskscheduler.scan direction (diskscheduler.mkDiskScheduler h cur M R)
    = Returns (seq, total)
    /\ ui.scan direction (ui.mkDiskScheduler h M R) = Returns (seq, total)
    /\ (boundary = [] \/ boundary = [if is_right direction then M else 0])
    /\ Permutation (boundary ++ R) seq.
Proof.
  destruct (scan_sequence_perm direction h M R) as (boundary & Hb & Hp).
  exists (scan_sequence direction h M R),
         (replay h (scan_sequence direction h M R)), boundary.
  rewrite cli_scan_eq, ui_scan_eq. simpl. repeat split; assumption.
Qed.

(** X2: on a non-empty request list [cscan] serves each request
    exactly as often as it was added: its sequence is a rearrangement of
    the request list with one visit of [0], or one of [M] and one of [0],
    added. *)
Theorem cscan_serves_each_request_once (h cur M : Z) (R : list Z) :
  R <> [] ->
  exists seq total boundary,
    diskscheduler.cscan (diskscheduler.mkDiskScheduler h cur M R)
    = Returns (seq, total)
    /\ ui.cscan (ui.mkDiskScheduler h M R) = Returns (seq, total)
    /\ (boundary = [0] \/ boundary = [M; 0])
    /\ Permutation (boundary ++ R) seq.
Proof.
  intros Hne.
  destruct (cscan_sequence_perm h M R) as (boundary & Hb & Hp).
  exists (cscan_sequence h M R), (replay h (cscan_sequence h M R)), boundary.
  rewrite cli_cscan_eq, (ui_cscan_eq (ui.mkDiskScheduler h M R) Hne). simpl.
  repeat split; assumption.
Qed.

Lemma cscan_serves_each_request_once_witness :
  exists seq total boundary,
    diskscheduler.cscan (diskscheduler.mkDiskScheduler 50 50 200 [82; 16; 82])
    = Returns (seq, total)
    /\ ui.cscan (ui.mkDiskScheduler 50 200 [82; 16; 82]) = Returns (seq, total)
    /\ (boundary = [0] \/ boundary = [200; 0])
    /\ Permutation (boundary ++ [82; 16; 82]) seq.
Proof.
  apply (cscan_serves_each_request_once 50 50 200 [82; 16; 82]). discriminate.
Defined.

End ServedOnce.

(** ** Sweeps: monotone runs and what they cost *)

Section Sweeps.

Lemma strongly_sorted_filter (rel : Z -> Z -> Prop) (p : Z -> bool) (l : list Z) :
  StronglySorted rel l -> StronglySorted rel (filter p l).
Proof.
  induction 1 as [|x l Hs IH Hall]; simpl.
  - constructor.
  - destruct (p x); [|exact IH].
    constructor; [exact IH|].
    apply Forall_forall. intros y Hy. apply filter_In in Hy.
    rewrite Forall_forall in Hall. apply Hall, Hy.
Qed.

Lemma sorted_strongly (l : list Z) : StronglySorted Z.le (Py.sorted l).
Proof.
  apply Sorted_StronglySorted; [exact Z.le_trans | apply sorted_ascending].
Qed.

Lemma sorted_reverse_strongly (l : list Z) : StronglySorted Z.ge (Py.sorted_reverse l).
Proof.
  apply Sorted_StronglySorted; [|apply sorted_reverse_descending].
  intros x y z Hxy Hyz. lia.
Qed.

Lemma sorted_reverse_In (x : Z) (l : list Z) : In x (Py.sorted_reverse l) <-> In x l.
Proof.
  split; apply Permutation_in; [symmetry|]; apply sorted_reverse_perm.
Qed.

Lemma head_after_cons (h p : Z) (l : list Z) : head_after h (p :: l) = head_after p l.
Proof. reflexivity. Qed.

Lemma head_after_In (h : Z) (l : list Z) : l <> [] -> In (head_after h l) l.
Proof.
  revert h. induction l as [|p l IH]; intros h Hne; [contradiction|].
  rewrite head_after_cons. destruct l as [|q l].
  - left. reflexivity.
  - right. apply IH. discriminate.
Qed.

(** An ascending run from [h] ends on its largest cylinder and costs the
    distance to it. *)
Lemma ascending_run (l : list Z) :
  forall h, StronglySorted Z.le l -> (forall x, In x l -> h <= x) ->
       replay h l = head_after h l - h
       /\ h <= head_after h l
       /\ (forall x, In x l -> x <= head_after h l).
Proof.
  induction l as [|p l IH]; intros h Hs Hge.
  - unfold head_after. simpl. repeat split; [lia | lia | intros x []].
  - inversion Hs as [|? ? Hs' Hall]; subst. rewrite Forall_forall in Hall.
    destruct (IH p Hs' Hall) as (Hc & Hle & Hmax).
    pose proof (Hge p (or_introl eq_refl)) as Hp.
    rewrite head_after_cons. simpl. rewrite Hc. repeat split; [lia | lia |].
    intros x [<-|Hx]; [exact Hle | apply Hmax, Hx].
Qed.

(** A descending run from [h] ends on its smallest cylinder and costs
    the distance to it. *)
Lemma descending_run (l : list Z) :
  forall h, StronglySorted Z.ge l -> (forall x, In x l -> x <= h) ->
       replay h l = h - head_after h l
       /\ head_after h l <= h
       /\ (forall x, In x l -> head_after h l <= x).
Proof.
  induction l as [|p l IH]; intros h Hs Hge.
  - unfold head_after. simpl. repeat split; [lia | lia | intros x []].
  - inversion Hs as [|? ? Hs' Hall]; subst. rewrite Forall_forall in Hall.
    assert (Hall' : forall x, In x l -> x <= p).
    { intros x Hx. specialize (Hall x Hx). lia. }
    destruct (IH p Hs' Hall') as (Hc & Hle & Hmin).
    pose proof (Hge p (or_introl eq_refl)) as Hp.
    rewrite head_after_cons. simpl. rewrite Hc. repeat split; [lia | lia |].
    intros x [<-|Hx]; [exact Hle | apply Hmin, Hx].
Qed.

Lemma truthy_nil (l : list Z) : Py.truthy l = false <-> l = [].
Proof. destruct l; simpl; split; congruence. Qed.

Lemma truthy_cons (l : list Z) : Py.truthy l = true <-> l <> [].
Proof. destruct l; simpl; split; congruence. Qed.

Lemma in_filter_sorted (p : Z -> bool) (x : Z) (R : list Z) :
  In x (filter p (Py.sorted R)) <-> In x R /\ p x = true.
Proof. rewrite filter_In, sorted_In. reflexivity. Qed.

(** The cost of [scan] to the right in a valid configuration: when a
    request lies at or above the head, the first sweep ends on [M] and the
    way back ends on the lowest cylinder served after it. *)
Lemma scan_right_cost (h M : Z) (R : list Z) :
  in_range M h -> Forall (in_range M) R ->
  let right := filter (fun r => r >=? h) (Py.sorted R) in
  let left := Py.sorted_reverse (filter (fun r => r <? h) (Py.sorted R)) in
  replay h (scan_sequence "right" h M R)
  = (if Py.truthy right
     then (M - h) + (M - head_after M left)
     else h - head_after h left)
  /\ head_after h (scan_sequence "right" h M R)
     = head_after (if Py.truthy right then M else h) left.
Proof.
  intros [Hh0 HhM] HR right left. rewrite Forall_forall in HR.
  assert (Hup : replay h right = head_after h right - h
                /\ h <= head_after h right
                /\ (forall x, In x right -> x <= head_after h right)).
  { apply ascending_run.
    - apply strongly_sorted_filter, sorted_strongly.
    - intros x Hx. apply in_filter_sorted in Hx. destruct Hx as [_ Hx].
      apply Z.geb_le in Hx. lia. }
  destruct Hup as (Hc & Hle & Hmax).
  assert (Hleft : forall x, In x left -> x <= h).
  { intros x Hx. apply sorted_reverse_In, in_filter_sorted in Hx.
    destruct Hx as [_ Hx]. apply Z.ltb_lt in Hx. lia. }
  assert (HrM : right <> [] -> head_after h right <= M).
  { intros Hne. apply head_after_In with (h := h) in Hne.
    apply in_filter_sorted in Hne. destruct Hne as [Hin _].
    apply HR in Hin. unfold in_range in Hin. lia. }
  unfold scan_sequence. change (is_right "right") with true. cbv iota.
  fold right left.
  rewrite replay_guarded, !head_after_app.
  destruct right as [|r0 right'] eqn:E.
  - simpl. split; [|reflexivity].
    destruct (descending_run left h (sorted_reverse_strongly _) Hleft) as (-> & _ & _).
    reflexivity.
  - cbn [Py.truthy andb]. specialize (HrM ltac:(discriminate)).
    assert (HleftM : forall x, In x left -> x <= M).
    { intros x Hx. specialize (Hleft x Hx). lia. }
    destruct (descending_run left M (sorted_reverse_strongly _) HleftM) as (Hd & _ & _).
    destruct (head_after h (r0 :: right') =? M) eqn:Eq; cbn [negb].
    + apply Z.eqb_eq in Eq. rewrite Hc, Eq, Hd. split; [lia | reflexivity].
    + rewrite Hc, Hd. split; [|reflexivity].
      rewrite Z.abs_eq by lia. lia.
Qed.

Lemma in_sorted_filter_sorted (p : Z -> bool) (x : Z) (R : list Z) :
  In x (Py.sorted (filter p (Py.sorted R))) <-> In x R /\ p x = true.
Proof. rewrite sorted_In. apply in_filter_sorted. Qed.

Lemma in_reverse_filter_sorted (p : Z -> bool) (x : Z) (R : list Z) :
  In x (Py.sorted_reverse (filter p (Py.sorted R))) <-> In x R /\ p x = true.
Proof. rewrite sorted_reverse_In. apply in_filter_sorted. Qed.

(** The cost of [scan] to the left in a valid configuration. *)
Lemma scan_left_cost (direction : string) (h M : Z) (R : list Z) :
  is_right direction = false ->
  in_range M h -> Forall (in_range M) R ->
  let left := Py.sorted_reverse (filter (fun r => r <=? h) (Py.sorted R)) in
  let right := Py.sorted (filter (fun r => r >? h) (Py.sorted R)) in
  replay h (scan_sequence direction h M R)
  = (if Py.truthy left
     then h + head_after 0 right
     else head_after h right - h)
  /\ head_after h (scan_sequence direction h M R)
     = head_after (if Py.truthy left then 0 else h) right.
Proof.
  intros Hd [Hh0 HhM] HR left right. rewrite Forall_forall in HR.
  assert (Hdown : replay h left = h - head_after h left
                  /\ head_after h left <= h
                  /\ (forall x, In x left -> head_after h left <= x)).
  { apply descending_run.
    - apply sorted_reverse_strongly.
    - intros x Hx. apply in_reverse_filter_sorted in Hx. destruct Hx as [_ Hx].
      apply Z.leb_le in Hx. exact Hx. }
  destruct Hdown as (Hc & Hle & Hmin).
  assert (Hright : forall x, In x right -> h <= x).
  { intros x Hx. apply in_sorted_filter_sorted in Hx.
    destruct Hx as [_ Hx]. rewrite Z.gtb_ltb in Hx. apply Z.ltb_lt in Hx. lia. }
  assert (Hl0 : left <> [] -> 0 <= head_after h left).
  { intros Hne. apply head_after_In with (h := h) in Hne.
    apply in_reverse_filter_sorted in Hne. destruct Hne as [Hin _].
    apply HR in Hin. unfold in_range in Hin. lia. }
  unfold scan_sequence. rewrite Hd. fold left right.
  rewrite replay_guarded, !head_after_app.
  destruct left as [|r0 left'] eqn:E.
  - simpl. split; [|reflexivity].
    destruct (ascending_run right h (sorted_strongly _) Hright) as (-> & _ & _).
    reflexivity.
  - cbn [Py.truthy andb]. specialize (Hl0 ltac:(discriminate)).
    assert (Hright0 : forall x, In x right -> 0 <= x).
    { intros x Hx. specialize (Hright x Hx). lia. }
    destruct (ascending_run right 0 (sorted_strongly _) Hright0) as (Hu & _ & _).
    destruct (head_after h (r0 :: left') =? 0) eqn:Eq; cbn [negb].
    + apply Z.eqb_eq in Eq. rewrite Hc, Eq, Hu. split; [lia | reflexivity].
    + rewrite Hc, Hu. split; [|reflexivity].
      lia.
Qed.

(** The cost of [cscan] in a valid configuration. *)
Lemma cscan_cost (h M : Z) (R : list Z) :
  in_range M h -> Forall (in_range M) R ->
  let right := filter (fun r => r >=? h) (Py.sorted R) in
  let left := filter (fun r => r <? h) (Py.sorted R) in
  replay h (cscan_sequence h M R)
  = (if Py.truthy right then (M - h) + M else h) + head_after 0 left
  /\ head_after h (cscan_sequence h M R) = head_after 0 left.
Proof.
  intros [Hh0 HhM] HR right left. rewrite Forall_forall in HR.
  assert (Hup : replay h right = head_after h right - h
                /\ h <= head_after h right
                /\ (forall x, In x right -> x <= head_after h right)).
  { apply ascending_run.
    - apply strongly_sorted_filter, sorted_strongly.
    - intros x Hx. apply in_filter_sorted in Hx. destruct Hx as [_ Hx].
      apply Z.geb_le in Hx. lia. }
  destruct Hup as (Hc & Hle & Hmax).
  assert (Hleft : replay 0 left = head_after 0 left - 0).
  { apply ascending_run.
    - apply strongly_sorted_filter, sorted_strongly.
    - intros x Hx. apply in_filter_sorted in Hx. destruct Hx as [Hin _].
      apply HR in Hin. unfold in_range in Hin. lia. }
  assert (HrM : right <> [] -> head_after h right <= M).
  { intros Hne. apply head_after_In with (h := h) in Hne.
    apply in_filter_sorted in Hne. destruct Hne as [Hin _].
    apply HR in Hin. unfold in_range in Hin. lia. }
  unfold cscan_sequence. fold right left.
  rewrite replay_guarded, !head_after_app.
  destruct right as [|r0 right'] eqn:E.
  - cbn [Py.truthy]. split; [|reflexivity].
    cbn [replay app]. rewrite Hleft.
    change (head_after h []) with h. lia.
  - cbn [Py.truthy]. specialize (HrM ltac:(discriminate)).
    split; [|reflexivity].
    rewrite Hc.
    change (replay M ([0] ++ left)) with (Z.abs (0 - M) + replay 0 left).
    rewrite Hleft. lia.
Qed.

Lemma head_after_Forall (P : Z -> Prop) (h : Z) (l : list Z) :
  P h -> Forall P l -> P (head_after h l).
Proof.
  revert h. induction l as [|p l IH]; intros h Hh Hl.
  - exact Hh.
  - inversion Hl; subst. rewrite head_after_cons. apply IH; assumption.
Qed.

Lemma filter_sorted_in_range (M : Z) (p : Z -> bool) (R : list Z) :
  Forall (in_range M) R -> Forall (in_range M) (filter p (Py.sorted R)).
Proof.
  rewrite !Forall_forall. intros H x Hx.
  apply in_filter_sorted in Hx. apply H, Hx.
Qed.

Lemma exists_ge_truthy (h : Z) (R : list Z) :
  Py.truthy (filter (fun r => r >=? h) (Py.sorted R)) = true
  <-> exists r, In r R /\ h <= r.
Proof.
  rewrite truthy_filter. split; intros (r & Hin & Hr); exists r.
  - apply (proj1 (sorted_In _ _)) in Hin. apply Z.geb_le in Hr. split; [exact Hin | lia].
  - split; [apply sorted_In, Hin | apply Z.geb_le; lia].
Qed.

(** X3: in a valid configuration with a request at or above the
    head, [scan] to the right costs [(M - h) + (M - final)], where [final]
    is the cylinder the head ends on: the lowest request when some request
    lies below the head, and [M] when none does. *)
Theorem scan_right_costs_two_sweeps (h cur M : Z) (R : list Z) :
  in_range M h -> Forall (in_range M) R ->
  (exists r, In r R /\ h <= r) ->
  exists seq final,
    diskscheduler.scan "right" (diskscheduler.mkDiskScheduler h cur M R)
    = Returns (seq, (M - h) + (M - final))
    /\ ui.scan "right" (ui.mkDiskScheduler h M R)
       = Returns (seq, (M - h) + (M - final))
    /\ head_after h seq = final
    /\ ((exists r, In r R /\ r < h) ->
        In final R /\ forall r, In r R -> final <= r)
    /\ (~ (exists r, In r R /\ r < h) -> final = M).
Proof.
  intros Hh HR Hex.
  pose proof (scan_right_cost h M R Hh HR) as Hcost. cbv zeta in Hcost.
  apply exists_ge_truthy in Hex. rewrite Hex in Hcost.
  destruct Hcost as [Hc Hf].
  set (left := Py.sorted_reverse (filter (fun r => r <? h) (Py.sorted R))) in *.
  exists (scan_sequence "right" h M R), (head_after M left).
  rewrite cli_scan_eq, ui_scan_eq. simpl. rewrite Hc.
  split; [reflexivity|]. split; [reflexivity|]. split; [exact Hf|].
  assert (Hleft : forall x, In x left <-> In x R /\ x < h).
  { intros x. unfold left. rewrite in_reverse_filter_sorted, Z.ltb_lt. reflexivity. }
  destruct Hh as [Hh0 HhM].
  split.
  - intros (r & Hin & Hr).
    assert (Hne : left <> []).
    { intros E. assert (Hx : In r left) by (apply Hleft; auto).
      rewrite E in Hx. destruct Hx. }
    pose proof (head_after_In M left Hne) as Hfin. apply Hleft in Hfin.
    destruct Hfin as [Hfin Hlt]. split; [exact Hfin|].
    destruct (descending_run left M (sorted_reverse_strongly _)) as (_ & _ & Hmin).
    { intros x Hx. apply Hleft in Hx. lia. }
    intros x Hx. destruct (Z_lt_le_dec x h) as [Hxl|Hxg].
    + apply Hmin, Hleft. auto.
    + lia.
  - intros Hno. destruct left as [|x l] eqn:E; [reflexivity|]. exfalso.
    apply Hno. exists x. apply Hleft. left. reflexivity.
Qed.

Lemma scan_right_costs_two_sweeps_witness :
  exists seq final,
    diskscheduler.scan "right"
      (diskscheduler.mkDiskScheduler 50 50 200 [82; 170; 43; 140; 24; 16; 190])
    = Returns (seq, (200 - 50) + (200 - final))
    /\ ui.scan "right" (ui.mkDiskScheduler 50 200 [82; 170; 43; 140; 24; 16; 190])
       = Returns (seq, (200 - 50) + (200 - final))
    /\ head_after 50 seq = final
    /\ ((exists r, In r [82; 170; 43; 140; 24; 16; 190] /\ r < 50) ->
        In final [82; 170; 43; 140; 24; 16; 190]
        /\ forall r, In r [82; 170; 43; 140; 24; 16; 190] -> final <= r)
    /\ (~ (exists r, In r [82; 170; 43; 140; 24; 16; 190] /\ r < 50) -> final = 200).
Proof.
  apply (scan_right_costs_two_sweeps 50 50 200 [82; 170; 43; 140; 24; 16; 190]).
  - unfold in_range. lia.
  - repeat constructor; unfold in_range; lia.
  - exists 82. split; [left; reflexivity | lia].
Defined.

Lemma exists_le_truthy (h : Z) (R : list Z) :
  Py.truthy (Py.sorted_reverse (filter (fun r => r <=? h) (Py.sorted R))) = true
  <-> exists r, In r R /\ r <= h.
Proof.
  rewrite truthy_cons. split.
  - intros Hne. apply head_after_In with (h := h) in Hne.
    apply in_reverse_filter_sorted in Hne. destruct Hne as [Hin Hle].
    apply Z.leb_le in Hle. eauto.
  - intros (r & Hin & Hr) E.
    assert (Hx : In r (Py.sorted_reverse (filter (fun r => r <=? h) (Py.sorted R)))).
    { apply in_reverse_filter_sorted. split; [exact Hin | apply Z.leb_le, Hr]. }
    rewrite E in Hx. destruct Hx.
Qed.

(** X4: in a valid configuration with a request at or below the
    head, [scan] to the left costs [h + final], where [final] is the
    cylinder the head ends on: the highest request when some request lies
    above the head, and [0] when none does. *)
Theorem scan_left_costs_two_sweeps (h cur M : Z) (R : list Z) :
  in_range M h -> Forall (in_range M) R ->
  (exists r, In r R /\ r <= h) ->
  exists seq final,
    diskscheduler.scan "left" (diskscheduler.mkDiskScheduler h cur M R)
    = Returns (seq, h + final)
    /\ ui.scan "left" (ui.mkDiskScheduler h M R) = Returns (seq, h + final)
    /\ head_after h seq = final
    /\ ((exists r, In r R /\ h < r) ->
        In final R /\ forall r, In r R -> r <= final)
    /\ (~ (exists r, In r R /\ h < r) -> final = 0).
Proof.
  intros Hh HR Hex.
  pose proof (scan_left_cost "left" h M R eq_refl Hh HR) as Hcost. cbv zeta in Hcost.
  apply exists_le_truthy in Hex. rewrite Hex in Hcost.
  destruct Hcost as [Hc Hf].
  set (right := Py.sorted (filter (fun r => r >? h) (Py.sorted R))) in *.
  exists (scan_sequence "left" h M R), (head_after 0 right).
  rewrite cli_scan_eq, ui_scan_eq. simpl. rewrite Hc.
  split; [reflexivity|]. split; [reflexivity|]. split; [exact Hf|].
  assert (Hright : forall x, In x right <-> In x R /\ h < x).
  { intros x. unfold right.
    rewrite in_sorted_filter_sorted, Z.gtb_ltb, Z.ltb_lt. reflexivity. }
  destruct Hh as [Hh0 HhM].
  split.
  - intros (r & Hin & Hr).
    assert (Hne : right <> []).
    { intros E. assert (Hx : In r right) by (apply Hright; auto).
      rewrite E in Hx. destruct Hx. }
    pose proof (head_after_In 0 right Hne) as Hfin. apply Hright in Hfin.
    destruct Hfin as [Hfin Hlt]. split; [exact Hfin|].
    destruct (ascending_run right 0 (sorted_strongly _)) as (_ & _ & Hmax).
    { intros x Hx. apply Hright in Hx. lia. }
    intros x Hx. destruct (Z_lt_le_dec h x) as [Hxl|Hxg].
    + apply Hmax, Hright. auto.
    + lia.
  - intros Hno. destruct right as [|x l] eqn:E; [reflexivity|]. exfalso.
    apply Hno. exists x. apply Hright. left. reflexivity.
Qed.

Lemma scan_left_costs_two_sweeps_witness :
  exists seq final,
    diskscheduler.scan "left"
      (diskscheduler.mkDiskScheduler 50 50 200 [82; 170; 43; 140; 24; 16; 190])
    = Returns (seq, 50 + final)
    /\ ui.scan "left" (ui.mkDiskScheduler 50 200 [82; 170; 43; 140; 24; 16; 190])
       = Returns (seq, 50 + final)
    /\ head_after 50 seq = final
    /\ ((exists r, In r [82; 170; 43; 140; 24; 16; 190] /\ 50 < r) ->
        In final [82; 170; 43; 140; 24; 16; 190]
        /\ forall r, In r [82; 170; 43; 140; 24; 16; 190] -> r <= final)
    /\ (~ (exists r, In r [82; 170; 43; 140; 24; 16; 190] /\ 50 < r) -> final = 0).
Proof.
  apply (scan_left_costs_two_sweeps 50 50 200 [82; 170; 43; 140; 24; 16; 190]).
  - unfold in_range. lia.
  - repeat constructor; unfold in_range; lia.
  - exists 43. split; [simpl; tauto | lia].
Defined.

(** X5: in a valid configuration with a non-empty request list,
    [cscan] costs [base + final]: [base] is [(M - h) + M] when a request
    lies at or above the head and [h] when none does, and [final] is the
    cylinder the head ends on, the highest request below the head, or [0]
    when no request lies below it. *)
Theorem cscan_cost_closed_form (h cur M : Z) (R : list Z) :
  in_range M h -> Forall (in_range M) R -> R <> [] ->
  exists seq base final,
    diskscheduler.cscan (diskscheduler.mkDiskScheduler h cur M R)
    = Returns (seq, base + final)
    /\ ui.cscan (ui.mkDiskScheduler h M R) = Returns (seq, base + final)
    /\ head_after h seq = final
    /\ ((exists r, In r R /\ h <= r) -> base = (M - h) + M)
    /\ (~ (exists r, In r R /\ h <= r) -> base = h)
    /\ ((exists r, In r R /\ r < h) ->
        In final R /\ final < h /\ forall r, In r R -> r < h -> r <= final)
    /\ (~ (exists r, In r R /\ r < h) -> final = 0).
Proof.
  intros Hh HR Hne.
  pose proof (cscan_cost h M R Hh HR) as Hcost. cbv zeta in Hcost.
  destruct Hcost as [Hc Hf].
  set (right := filter (fun r => r >=? h) (Py.sorted R)) in *.
  set (left := filter (fun r => r <? h) (Py.sorted R)) in *.
  exists (cscan_sequence h M R),
         (if Py.truthy right then (M - h) + M else h), (head_after 0 left).
  rewrite cli_cscan_eq, (ui_cscan_eq (ui.mkDiskScheduler h M R) Hne). simpl.
  rewrite Hc.
  split; [reflexivity|]. split; [reflexivity|]. split; [exact Hf|].
  assert (Hleft : forall x, In x left <-> In x R /\ x < h).
  { intros x. unfold left. rewrite in_filter_sorted, Z.ltb_lt. reflexivity. }
  rewrite Forall_forall in HR. destruct Hh as [Hh0 HhM].
  split; [|split; [|split]].
  - intros Hex. apply exists_ge_truthy in Hex. fold right in Hex.
    rewrite Hex. reflexivity.
  - intros Hno. destruct (Py.truthy right) eqn:E; [|reflexivity].
    exfalso. apply Hno, exists_ge_truthy, E.
  - intros (r & Hin & Hr).
    assert (Hnl : left <> []).
    { intros E. assert (Hx : In r left) by (apply Hleft; auto).
      rewrite E in Hx. destruct Hx. }
    pose proof (head_after_In 0 left Hnl) as Hfin. apply Hleft in Hfin.
    destruct Hfin as [Hfin Hlt]. split; [exact Hfin|]. split; [exact Hlt|].
    destruct (ascending_run left 0) as (_ & _ & Hmax).
    { apply strongly_sorted_filter, sorted_strongly. }
    { intros x Hx. apply Hleft in Hx. destruct Hx as [Hx _].
      apply HR in Hx. unfold in_range in Hx. lia. }
    intros x Hx Hxh. apply Hmax, Hleft. auto.
  - intros Hno. destruct left as [|x l] eqn:E; [reflexivity|]. exfalso.
    apply Hno. exists x. apply Hleft. left. reflexivity.
Qed.

Lemma cscan_cost_closed_form_witness :
  exists seq base final,
    diskscheduler.cscan
      (diskscheduler.mkDiskScheduler 50 50 200 [82; 170; 43; 140; 24; 16; 190])
    = Returns (seq, base + final)
    /\ ui.cscan (ui.mkDiskScheduler 50 200 [82; 170; 43; 140; 24; 16; 190])
       = Returns (seq, base + final)
    /\ head_after 50 seq = final
    /\ ((exists r, In r [82; 170; 43; 140; 24; 16; 190] /\ 50 <= r) ->
        base = (200 - 50) + 200)
    /\ (~ (exists r, In r [82; 170; 43; 140; 24; 16; 190] /\ 50 <= r) -> base = 50)
    /\ ((exists r, In r [82; 170; 43; 140; 24; 16; 190] /\ r < 50) ->
        In final [82; 170; 43; 140; 24; 16; 190] /\ final < 50
        /\ forall r, In r [82; 170; 43; 140; 24; 16; 190] -> r < 50 -> r <= final)
    /\ (~ (exists r, In r [82; 170; 43; 140; 24; 16; 190] /\ r < 50) -> final = 0).
Proof.
  apply (cscan_cost_closed_form 50 50 200 [82; 170; 43; 140; 24; 16; 190]).
  - unfold in_range. lia.
  - repeat constructor; unfold in_range; lia.
  - discriminate.
Defined.

(** X6: in a valid configuration neither [scan], in any direction,
    nor [cscan] moves the head by more than [2 * M] cylinders in total,
    however many requests are pending. *)
Theorem sweeps_cost_at_most_twice_the_range (direction : string) (h cur M : Z)
        (R : list Z) :
  in_range M h -> Forall (in_range M) R ->
  schedules (fun _ total => 0 <= total <= 2 * M)
    (diskscheduler.scan direction (diskscheduler.mkDiskScheduler h cur M R))
  /\ schedules (fun _ total => 0 <= total <= 2 * M)
       (ui.scan direction (ui.mkDiskScheduler h M R))
  /\ schedules (fun _ total => 0 <= total <= 2 * M)
       (diskscheduler.cscan (diskscheduler.mkDiskScheduler h cur M R))
  /\ schedules (fun _ total => 0 <= total <= 2 * M)
       (ui.cscan (ui.mkDiskScheduler h M R)).
Proof.
  intros Hh HR.
  assert (Hscan : 0 <= replay h (scan_sequence direction h M R) <= 2 * M).
  { split; [apply replay_nonneg|].
    destruct (is_right direction) eqn:Hd.
    - assert (direction = "right"%string) as -> by (apply String.eqb_eq, Hd).
      destruct (scan_right_cost h M R Hh HR) as [-> _].
      set (left := Py.sorted_reverse (filter (fun r => r <? h) (Py.sorted R))).
      assert (Hl : Forall (in_range M) left).
      { apply Forall_forall. intros x Hx. apply in_reverse_filter_sorted in Hx.
        rewrite Forall_forall in HR. apply HR, Hx. }
      pose proof (head_after_Forall (in_range M) h left Hh Hl) as H1.
      assert (HM : in_range M M) by (unfold in_range in *; lia).
      pose proof (head_after_Forall (in_range M) M left HM Hl) as H2.
      unfold in_range in *. destruct (Py.truthy _); lia.
    - destruct (scan_left_cost direction h M R Hd Hh HR) as [-> _].
      set (right := Py.sorted (filter (fun r => r >? h) (Py.sorted R))).
      assert (Hr : Forall (in_range M) right).
      { apply Forall_forall. intros x Hx. apply in_sorted_filter_sorted in Hx.
        rewrite Forall_forall in HR. apply HR, Hx. }
      pose proof (head_after_Forall (in_range M) h right Hh Hr) as H1.
      assert (H0 : in_range M 0) by (unfold in_range in *; lia).
      pose proof (head_after_Forall (in_range M) 0 right H0 Hr) as H2.
      unfold in_range in *. destruct (Py.truthy _); lia. }
  assert (Hcscan : 0 <= replay h (cscan_sequence h M R) <= 2 * M).
  { split; [apply replay_nonneg|].
    destruct (cscan_cost h M R Hh HR) as [-> _].
    set (left := filter (fun r => r <? h) (Py.sorted R)).
    assert (Hl : Forall (fun x => 0 <= x <= h) left).
    { apply Forall_forall. intros x Hx. apply in_filter_sorted in Hx.
      destruct Hx as [Hin Hx]. apply Z.ltb_lt in Hx.
      rewrite Forall_forall in HR. apply HR in Hin. unfold in_range in Hin. lia. }
    assert (H0 : 0 <= 0 <= h) by (unfold in_range in Hh; lia).
    pose proof (head_after_Forall (fun x => 0 <= x <= h) 0 left H0 Hl) as H1.
    simpl in H1. unfold in_range in *. destruct (Py.truthy _); lia. }
  repeat split.
  - eexists _, _. rewrite cli_scan_eq. simpl. split; [reflexivity | exact Hscan].
  - eexists _, _. rewrite ui_scan_eq. simpl. split; [reflexivity | exact Hscan].
  - eexists _, _. rewrite cli_cscan_eq. simpl. split; [reflexivity | exact Hcscan].
  - destruct R as [|r R'].
    + exists [], 0. split; [reflexivity|]. unfold in_range in Hh. lia.
    + eexists _, _. rewrite ui_cscan_eq by discriminate. simpl.
      split; [reflexivity | exact Hcscan].
Qed.

Lemma sweeps_cost_at_most_twice_the_range_witness :
  schedules (fun _ total => 0 <= total <= 2 * 200)
    (diskscheduler.cscan
       (diskscheduler.mkDiskScheduler 50 50 200 [82; 170; 43; 140; 24; 16; 190])).
Proof.
  apply (sweeps_cost_at_most_twice_the_range "right" 50 50 200
           [82; 170; 43; 140; 24; 16; 190]).
  - unfold in_range. lia.
  - repeat constructor; unfold in_range; lia.
Defined.

End Sweeps.

(** ** Length and range of the schedules *)

Section Shape.

Lemma ui_cscan_cases (h M : Z) (R : list Z) :
  ui.cscan (ui.mkDiskScheduler h M R)
  = match R with
    | [] => Returns ([], 0)
    | _ :: _ => Returns (cscan_sequence h M R, replay h (cscan_sequence h M R))
    end.
Proof.
  destruct R as [|r R']; [reflexivity|]. apply ui_cscan_eq. discriminate.
Qed.

Lemma scan_sequence_length (direction : string) (h M : Z) (R : list Z) :
  (List.length (scan_sequence direction h M R) = List.length R
   \/ List.length (scan_sequence direction h M R) = List.length R + 1)%nat.
Proof.
  destruct (scan_sequence_perm direction h M R) as (b & Hb & Hp).
  apply Permutation_length in Hp. rewrite length_app in Hp.
  destruct Hb as [-> | ->]; simpl in Hp; lia.
Qed.

Lemma cscan_sequence_length (h M : Z) (R : list Z) :
  (List.length (cscan_sequence h M R) = List.length R + 1
   \/ List.length (cscan_sequence h M R) = List.length R + 2)%nat.
Proof.
  destruct (cscan_sequence_perm h M R) as (b & Hb & Hp).
  apply Permutation_length in Hp. rewrite length_app in Hp.
  destruct Hb as [-> | ->]; simpl in Hp; lia.
Qed.

Lemma scan_sequence_in_range (direction : string) (h M : Z) (R : list Z) :
  in_range M h -> Forall (in_range M) R ->
  Forall (in_range M) (scan_sequence direction h M R).
Proof.
  intros Hh HR.
  assert (H0 : in_range M 0) by (unfold in_range in *; lia).
  assert (HM : in_range M M) by (unfold in_range in *; lia).
  destruct (scan_sequence_perm direction h M R) as (b & Hb & Hp).
  apply (Permutation_Forall Hp), Forall_app. split; [|exact HR].
  destruct Hb as [-> | ->]; [constructor|].
  destruct (is_right direction); (constructor; [assumption | constructor]).
Qed.

Lemma cscan_sequence_in_range (h M : Z) (R : list Z) :
  in_range M h -> Forall (in_range M) R ->
  Forall (in_range M) (cscan_sequence h M R).
Proof.
  intros Hh HR.
  assert (H0 : in_range M 0) by (unfold in_range in *; lia).
  assert (HM : in_range M M) by (unfold in_range in *; lia).
  destruct (cscan_sequence_perm h M R) as (b & Hb & Hp).
  apply (Permutation_Forall Hp), Forall_app. split; [|exact HR].
  destruct Hb as [-> | ->];
    repeat (constructor; [assumption|]); constructor.
Qed.

(** X7: [fcfs] and [sstf] return exactly [len(R)] visits, [scan]
    returns [len(R)] or [len(R) + 1], and on a non-empty request list
    [cscan] returns [len(R) + 1] or [len(R) + 2]; so for a non-empty
    request list no policy returns an empty sequence and the average
    [total_seek / len(sequence)] is defined. *)
Theorem sequence_lengths (direction : string) (h cur M : Z) (R : list Z) :
  R <> [] ->
  let n := List.length R in
  let exactly (seq : list Z) (_ : Z) := List.length seq = n in
  let one_more (seq : list Z) (_ : Z) :=
    (List.length seq = n \/ List.length seq = n + 1)%nat in
  let wrapped (seq : list Z) (_ : Z) :=
    (List.length seq = n + 1 \/ List.length seq = n + 2)%nat in
  schedules exactly (diskscheduler.fcfs (diskscheduler.mkDiskScheduler h cur M R))
  /\ schedules exactly (diskscheduler.sstf (diskscheduler.mkDiskScheduler h cur M R))
  /\ schedules one_more
       (diskscheduler.scan direction (diskscheduler.mkDiskScheduler h cur M R))
  /\ schedules wrapped (diskscheduler.cscan (diskscheduler.mkDiskScheduler h cur M R))
  /\ schedules exactly (ui.fcfs (ui.mkDiskScheduler h M R))
  /\ schedules exactly (ui.sstf (ui.mkDiskScheduler h M R))
  /\ schedules one_more (ui.scan direction (ui.mkDiskScheduler h M R))
  /\ schedules wrapped (ui.cscan (ui.mkDiskScheduler h M R)).
Proof.
  intros Hne n exactly one_more wrapped.
  pose proof (scan_sequence_length direction h M R) as Hscan.
  pose proof (cscan_sequence_length h M R) as Hcscan.
  repeat split.
  - eexists _, _. rewrite cli_fcfs_eq. split; reflexivity.
  - destruct (cli_sstf_eq (diskscheduler.mkDiskScheduler h cur M R))
      as (order & -> & Hnf).
    eexists _, _. split; [reflexivity|]. apply (nearest_first_length _ _ _ Hnf).
  - eexists _, _. rewrite cli_scan_eq. split; [reflexivity | exact Hscan].
  - eexists _, _. rewrite cli_cscan_eq. split; [reflexivity | exact Hcscan].
  - eexists _, _. rewrite ui_fcfs_eq. split; reflexivity.
  - destruct (ui_sstf_eq (ui.mkDiskScheduler h M R)) as (order & -> & Hnf).
    eexists _, _. split; [reflexivity|]. apply (nearest_first_length _ _ _ Hnf).
  - eexists _, _. rewrite ui_scan_eq. split; [reflexivity | exact Hscan].
  - eexists _, _. rewrite ui_cscan_eq by exact Hne. split; [reflexivity | exact Hcscan].
Qed.

Lemma sequence_lengths_witness :
  schedules (fun seq _ => (List.length seq = 7 + 1 \/ List.length seq = 7 + 2)%nat)
    (ui.cscan (ui.mkDiskScheduler 50 200 [82; 170; 43; 140; 24; 16; 190])).
Proof.
  apply (sequence_lengths "right" 50 50 200 [82; 170; 43; 140; 24; 16; 190]).
  discriminate.
Defined.

(** X8: in a valid configuration (head and every request within
    [0, M]) every cylinder of every returned sequence lies within
    [0, M]. *)
Theorem visits_stay_in_range (direction : string) (h cur M : Z) (R : list Z) :
  in_range M h -> Forall (in_range M) R ->
  let inside (seq : list Z) (_ : Z) := Forall (in_range M) seq in
  schedules inside (diskscheduler.fcfs (diskscheduler.mkDiskScheduler h cur M R))
  /\ schedules inside (diskscheduler.sstf (diskscheduler.mkDiskScheduler h cur M R))
  /\ schedules inside
       (diskscheduler.scan direction (diskscheduler.mkDiskScheduler h cur M R))
  /\ schedules inside (diskscheduler.cscan (diskscheduler.mkDiskScheduler h cur M R))
  /\ schedules inside (ui.fcfs (ui.mkDiskScheduler h M R))
  /\ schedules inside (ui.sstf (ui.mkDiskScheduler h M R))
  /\ schedules inside (ui.scan direction (ui.mkDiskScheduler h M R))
  /\ schedules inside (ui.cscan (ui.mkDiskScheduler h M R)).
Proof.
  intros Hh HR inside.
  pose proof (scan_sequence_in_range direction h M R Hh HR) as Hscan.
  pose proof (cscan_sequence_in_range h M R Hh HR) as Hcscan.
  repeat split.
  - eexists _, _. rewrite cli_fcfs_eq. split; [reflexivity | exact HR].
  - destruct (cli_sstf_eq (diskscheduler.mkDiskScheduler h cur M R))
      as (order & -> & Hnf).
    eexists _, _. split; [reflexivity|].
    apply (Permutation_Forall (nearest_first_perm _ _ _ Hnf)), HR.
  - eexists _, _. rewrite cli_scan_eq. split; [reflexivity | exact Hscan].
  - eexists _, _. rewrite cli_cscan_eq. split; [reflexivity | exact Hcscan].
  - eexists _, _. rewrite ui_fcfs_eq. split; [reflexivity | exact HR].
  - destruct (ui_sstf_eq (ui.mkDiskScheduler h M R)) as (order & -> & Hnf).
    eexists _, _. split; [reflexivity|].
    apply (Permutation_Forall (nearest_first_perm _ _ _ Hnf)), HR.
  - eexists _, _. rewrite ui_scan_eq. split; [reflexivity | exact Hscan].
  - rewrite ui_cscan_cases. destruct R as [|r R'].
    + exists [], 0. split; [reflexivity | constructor].
    + eexists _, _. split; [reflexivity | exact Hcscan].
Qed.

Lemma visits_stay_in_range_witness :
  schedules (fun seq _ => Forall (in_range 200) seq)
    (diskscheduler.sstf
       (diskscheduler.mkDiskScheduler 50 50 200 [82; 170; 43; 140; 24; 16; 190])).
Proof.
  apply (visits_stay_in_range "right" 50 50 200 [82; 170; 43; 140; 24; 16; 190]).
  - unfold in_range. lia.
  - repeat constructor; unfold in_range; lia.
Defined.

End Shape.

(** ** What the sweeps depend on *)

Section Canonical.

Lemma strongly_sorted_unique (rel : Z -> Z -> Prop) :
  (forall x y, rel x y -> rel y x -> x = y) ->
  forall l l', StronglySorted rel l -> StronglySorted rel l' ->
          Permutation l l' -> l = l'.
Proof.
  intros Hanti. induction l as [|x t IH]; intros l' Hs Hs' Hp.
  - apply Permutation_nil in Hp. subst. reflexivity.
  - destruct l' as [|y t'].
    + symmetry in Hp. apply Permutation_nil in Hp. discriminate.
    + inversion Hs as [|? ? Hst Hx]; inversion Hs' as [|? ? Hst' Hy]; subst.
      rewrite Forall_forall in Hx, Hy.
      assert (Heq : x = y).
      { assert (Hxin : In x (y :: t')) by (apply (Permutation_in _ Hp); left; reflexivity).
        assert (Hyin : In y (x :: t)).
        { apply (Permutation_in _ (Permutation_sym Hp)). left. reflexivity. }
        destruct Hxin as [E|Hxin]; [symmetry; exact E|].
        destruct Hyin as [E|Hyin]; [exact E|].
        apply Hanti; [apply Hx, Hyin | apply Hy, Hxin]. }
      subst y. f_equal. apply IH; trivial.
      apply Permutation_cons_inv in Hp. exact Hp.
Qed.

Lemma sorted_canonical (l l' : list Z) :
  Permutation l l' -> Py.sorted l = Py.sorted l'.
Proof.
  intros Hp. apply (strongly_sorted_unique Z.le).
  - intros x y Hxy Hyx. lia.
  - apply sorted_strongly.
  - apply sorted_strongly.
  - rewrite <- (sorted_perm l), <- (sorted_perm l'). exact Hp.
Qed.

Lemma sorted_reverse_canonical (l l' : list Z) :
  Permutation l l' -> Py.sorted_reverse l = Py.sorted_reverse l'.
Proof.
  intros Hp. apply (strongly_sorted_unique Z.ge).
  - intros x y Hxy Hyx. lia.
  - apply sorted_reverse_strongly.
  - apply sorted_reverse_strongly.
  - rewrite <- (sorted_reverse_perm l), <- (sorted_reverse_perm l'). exact Hp.
Qed.

Lemma scan_sequence_canonical (direction : string) (h M : Z) (R R' : list Z) :
  Permutation R R' -> scan_sequence direction h M R = scan_sequence direction h M R'.
Proof.
  intros Hp. unfold scan_sequence. rewrite (sorted_canonical R R' Hp). reflexivity.
Qed.

Lemma cscan_sequence_canonical (h M : Z) (R R' : list Z) :
  Permutation R R' -> cscan_sequence h M R = cscan_sequence h M R'.
Proof.
  intros Hp. unfold cscan_sequence. rewrite (sorted_canonical R R' Hp). reflexivity.
Qed.

(** X9: [scan] and [cscan] do not depend on the order in which the
    requests were added: two request lists that are rearrangements of one
    another give the same sequence and the same total seek. *)
Theorem sweeps_ignore_insertion_order (direction : string) (h cur M : Z)
        (R R' : list Z) :
  Permutation R R' ->
  diskscheduler.scan direction (diskscheduler.mkDiskScheduler h cur M R)
  = diskscheduler.scan direction (diskscheduler.mkDiskScheduler h cur M R')
  /\ diskscheduler.cscan (diskscheduler.mkDiskScheduler h cur M R)
     = diskscheduler.cscan (diskscheduler.mkDiskScheduler h cur M R')
  /\ ui.scan direction (ui.mkDiskScheduler h M R)
     = ui.scan direction (ui.mkDiskScheduler h M R')
  /\ ui.cscan (ui.mkDiskScheduler h M R) = ui.cscan (ui.mkDiskScheduler h M R').
Proof.
  intros Hp. repeat split.
  - rewrite !cli_scan_eq. simpl.
    rewrite (scan_sequence_canonical direction h M R R' Hp). reflexivity.
  - rewrite !cli_cscan_eq. simpl.
    rewrite (cscan_sequence_canonical h M R R' Hp). reflexivity.
  - rewrite !ui_scan_eq. simpl.
    rewrite (scan_sequence_canonical direction h M R R' Hp). reflexivity.
  - rewrite !ui_cscan_cases.
    destruct R as [|r t]; destruct R' as [|r' t'].
    + reflexivity.
    + apply Permutation_nil in Hp. discriminate.
    + symmetry in Hp. apply Permutation_nil in Hp. discriminate.
    + rewrite (cscan_sequence_canonical h M _ _ Hp). reflexivity.
Qed.

Lemma sweeps_ignore_insertion_order_witness :
  diskscheduler.scan "right" (diskscheduler.mkDiskScheduler 50 50 200 [82; 16; 170])
  = diskscheduler.scan "right" (diskscheduler.mkDiskScheduler 50 50 200 [16; 170; 82]).
Proof.
  apply (sweeps_ignore_insertion_order "right" 50 50 200 [82; 16; 170] [16; 170; 82]).
  apply perm_trans with (l' := [16; 82; 170]).
  - apply perm_swap.
  - apply perm_skip, perm_swap.
Defined.

(** Nearest first from below: when no pending request lies below the
    head, the order served is ascending. *)
Lemma nearest_first_above (cur : Z) (pending order : list Z) :
  nearest_first cur pending order ->
  (forall y, In y pending -> cur <= y) ->
  StronglySorted Z.le order.
Proof.
  induction 1 as [|cur c before after order Hb Ha Hn IH]; intros Hall.
  - constructor.
  - assert (Hc : cur <= c) by (apply Hall, in_or_app; right; left; reflexivity).
    assert (Hrest : forall y, In y (before ++ after) -> c <= y).
    { intros y Hy.
      assert (cur <= y).
      { apply Hall. apply in_app_or in Hy. apply in_or_app.
        destruct Hy; [left | right; right]; assumption. }
      apply in_app_or in Hy. destruct Hy as [Hy|Hy].
      - specialize (Hb y Hy). lia.
      - specialize (Ha y Hy). lia. }
    constructor; [apply IH, Hrest|].
    apply Forall_forall. intros y Hy. apply Hrest.
    apply (Permutation_in _ (Permutation_sym (nearest_first_perm _ _ _ Hn))), Hy.
Qed.

Lemma nearest_first_below (cur : Z) (pending order : list Z) :
  nearest_first cur pending order ->
  (forall y, In y pending -> y <= cur) ->
  StronglySorted Z.ge order.
Proof.
  induction 1 as [|cur c before after order Hb Ha Hn IH]; intros Hall.
  - constructor.
  - assert (Hc : c <= cur) by (apply Hall, in_or_app; right; left; reflexivity).
    assert (Hrest : forall y, In y (before ++ after) -> y <= c).
    { intros y Hy.
      assert (y <= cur).
      { apply Hall. apply in_app_or in Hy. apply in_or_app.
        destruct Hy; [left | right; right]; assumption. }
      apply in_app_or in Hy. destruct Hy as [Hy|Hy].
      - specialize (Hb y Hy). lia.
      - specialize (Ha y Hy). lia. }
    constructor; [apply IH, Hrest|].
    apply Forall_forall. intros y Hy.
    assert (y <= c); [|lia]. apply Hrest.
    apply (Permutation_in _ (Permutation_sym (nearest_first_perm _ _ _ Hn))), Hy.
Qed.

(** X10: when every request lies on one side of the head, [sstf]
    serves them in one sweep away from the head: in ascending order when
    all are at or above it, in descending order when all are at or below
    it, and the total seek is the distance from the head to the last
    cylinder served, the farthest request. *)
Theorem sstf_one_sided_is_a_sweep (h cur M : Z) (R : list Z) :
  ((forall r, In r R -> h <= r) ->
   let seq := Py.sorted R in
   diskscheduler.sstf (diskscheduler.mkDiskScheduler h cur M R)
   = Returns (seq, head_after h seq - h)
   /\ ui.sstf (ui.mkDiskScheduler h M R) = Returns (seq, head_after h seq - h)
   /\ forall r, In r R -> r <= head_after h seq)
  /\ ((forall r, In r R -> r <= h) ->
      let seq := Py.sorted_reverse R in
      diskscheduler.sstf (diskscheduler.mkDiskScheduler h cur M R)
      = Returns (seq, h - head_after h seq)
      /\ ui.sstf (ui.mkDiskScheduler h M R) = Returns (seq, h - head_after h seq)
      /\ forall r, In r R -> head_after h seq <= r).
Proof.
  destruct (cli_sstf_eq (diskscheduler.mkDiskScheduler h cur M R))
    as (order & Hc & Hnf).
  destruct (ui_sstf_eq (ui.mkDiskScheduler h M R)) as (order' & Hu & Hnf').
  simpl in Hc, Hnf, Hu, Hnf'.
  rewrite (nearest_first_unique _ _ _ _ Hnf' Hnf) in Hu. clear Hnf'.
  split; intros Hall seq.
  - assert (Horder : order = seq).
    { apply (strongly_sorted_unique Z.le).
      - intros x y Hxy Hyx. lia.
      - apply (nearest_first_above _ _ _ Hnf Hall).
      - apply sorted_strongly.
      - rewrite <- (nearest_first_perm _ _ _ Hnf). apply sorted_perm. }
    subst order.
    destruct (ascending_run seq h (sorted_strongly R)) as (Hcost & _ & Hmax).
    { intros x Hx. apply Hall, sorted_In, Hx. }
    rewrite Hc, Hu, Hcost. repeat split.
    intros r Hr. apply Hmax, sorted_In, Hr.
  - assert (Horder : order = seq).
    { apply (strongly_sorted_unique Z.ge).
      - intros x y Hxy Hyx. lia.
      - apply (nearest_first_below _ _ _ Hnf Hall).
      - apply sorted_reverse_strongly.
      - rewrite <- (nearest_first_perm _ _ _ Hnf). apply sorted_reverse_perm. }
    subst order.
    destruct (descending_run seq h (sorted_reverse_strongly R)) as (Hcost & _ & Hmin).
    { intros x Hx. apply Hall, sorted_reverse_In, Hx. }
    rewrite Hc, Hu, Hcost. repeat split.
    intros r Hr. apply Hmin, sorted_reverse_In, Hr.
Qed.

Lemma sstf_one_sided_is_a_sweep_witness :
  diskscheduler.sstf (diskscheduler.mkDiskScheduler 50 50 200 [170; 82; 140])
  = Returns ([82; 140; 170], 170 - 50)
  /\ ui.sstf (ui.mkDiskScheduler 50 200 [24; 43; 16]) = Returns ([43; 24; 16], 50 - 16).
Proof.
  split.
  - destruct (sstf_one_sided_is_a_sweep 50 50 200 [170; 82; 140]) as [Hup _].
    destruct Hup as (Hc & _ & _).
    + intros r [<-|[<-|[<-|[]]]]; lia.
    + exact Hc.
  - destruct (sstf_one_sided_is_a_sweep 50 50 200 [24; 43; 16]) as [_ Hdown].
    destruct Hdown as (_ & Hu & _).
    + intros r [<-|[<-|[<-|[]]]]; lia.
    + exact Hu.
Defined.

End Canonical.

(** ** The shape of a sweep *)

Section Elevator.

Lemma strongly_sorted_snoc (rel : Z -> Z -> Prop) (l : list Z) (m : Z) :
  StronglySorted rel l -> Forall (fun x => rel x m) l ->
  StronglySorted rel (l ++ [m]).
Proof.
  induction 1 as [|x l Hs IH Hall]; intros Hm; simpl.
  - repeat constructor.
  - inversion Hm; subst. constructor; [apply IH; assumption|].
    apply Forall_app. split; [exact Hall | repeat constructor; assumption].
Qed.

Lemma strongly_sorted_guarded (rel : Z -> Z -> Prop) (l : list Z) (c : bool) (m : Z) :
  StronglySorted rel l -> Forall (fun x => rel x m) l ->
  StronglySorted rel (l ++ (if c then [m] else [])).
Proof.
  intros Hs Hm. destruct c.
  - apply strongly_sorted_snoc; assumption.
  - rewrite app_nil_r. exact Hs.
Qed.

(** X11: in a valid configuration the head reverses at most once
    during [scan]: to the right, the sequence is a run ascending from the
    head followed by a run descending from the head; to the left, a run
    descending from the head followed by a run ascending from it. *)
Theorem scan_reverses_at_most_once (h cur M : Z) (R : list Z) :
  in_range M h -> Forall (in_range M) R ->
  (exists up down total,
      diskscheduler.scan "right" (diskscheduler.mkDiskScheduler h cur M R)
      = Returns (up ++ down, total)
      /\ ui.scan "right" (ui.mkDiskScheduler h M R) = Returns (up ++ down, total)
      /\ StronglySorted Z.le (h :: up)
      /\ StronglySorted Z.ge (h :: down))
  /\ (exists down up total,
         diskscheduler.scan "left" (diskscheduler.mkDiskScheduler h cur M R)
         = Returns (down ++ up, total)
         /\ ui.scan "left" (ui.mkDiskScheduler h M R) = Returns (down ++ up, total)
         /\ StronglySorted Z.ge (h :: down)
         /\ StronglySorted Z.le (h :: up)).
Proof.
  intros [Hh0 HhM] HR. rewrite Forall_forall in HR. split.
  - set (right := filter (fun r => r >=? h) (Py.sorted R)).
    set (left := Py.sorted_reverse (filter (fun r => r <? h) (Py.sorted R))).
    set (c := Py.truthy right && negb (head_after h right =? M)).
    exists (right ++ (if c then [M] else [])), left,
           (replay h (scan_sequence "right" h M R)).
    rewrite cli_scan_eq, ui_scan_eq. simpl.
    assert (Hseq : scan_sequence "right" h M R
                   = (right ++ (if c then [M] else [])) ++ left).
    { unfold scan_sequence. change (is_right "right") with true. cbv iota.
      fold right left c. rewrite app_assoc. reflexivity. }
    rewrite Hseq. split; [reflexivity|]. split; [reflexivity|].
    assert (Hr : forall x, In x right -> h <= x /\ x <= M).
    { intros x Hx. apply in_filter_sorted in Hx. destruct Hx as [Hin Hx].
      apply Z.geb_le in Hx. apply HR in Hin. unfold in_range in Hin. lia. }
    split.
    + constructor.
      * apply strongly_sorted_guarded.
        -- apply strongly_sorted_filter, sorted_strongly.
        -- apply Forall_forall. intros x Hx. apply Hr, Hx.
      * apply Forall_app. split.
        -- apply Forall_forall. intros x Hx. apply Hr, Hx.
        -- destruct c; repeat constructor. exact HhM.
    + constructor; [apply sorted_reverse_strongly|].
      apply Forall_forall. intros x Hx. apply in_reverse_filter_sorted in Hx.
      destruct Hx as [_ Hx]. apply Z.ltb_lt in Hx. lia.
  - set (left := Py.sorted_reverse (filter (fun r => r <=? h) (Py.sorted R))).
    set (right := Py.sorted (filter (fun r => r >? h) (Py.sorted R))).
    set (c := Py.truthy left && negb (head_after h left =? 0)).
    exists (left ++ (if c then [0] else [])), right,
           (replay h (scan_sequence "left" h M R)).
    rewrite cli_scan_eq, ui_scan_eq. simpl.
    assert (Hseq : scan_sequence "left" h M R
                   = (left ++ (if c then [0] else [])) ++ right).
    { unfold scan_sequence. change (is_right "left") with false. cbv iota.
      fold left right c. rewrite app_assoc. reflexivity. }
    rewrite Hseq. split; [reflexivity|]. split; [reflexivity|].
    assert (Hl : forall x, In x left -> 0 <= x /\ x <= h).
    { intros x Hx. apply in_reverse_filter_sorted in Hx. destruct Hx as [Hin Hx].
      apply Z.leb_le in Hx. apply HR in Hin. unfold in_range in Hin. lia. }
    split.
    + constructor.
      * apply strongly_sorted_guarded.
        -- apply sorted_reverse_strongly.
        -- apply Forall_forall. intros x Hx. apply Hl in Hx. lia.
      * apply Forall_app. split.
        -- apply Forall_forall. intros x Hx. apply Hl in Hx. lia.
        -- destruct c; repeat constructor. lia.
    + constructor; [apply sorted_strongly|].
      apply Forall_forall. intros x Hx. apply in_sorted_filter_sorted in Hx.
      destruct Hx as [_ Hx]. rewrite Z.gtb_ltb in Hx. apply Z.ltb_lt in Hx. lia.
Qed.

Lemma scan_reverses_at_most_once_witness :
  exists up down total,
    diskscheduler.scan "right"
      (diskscheduler.mkDiskScheduler 50 50 200 [82; 170; 43; 140; 24; 16; 190])
    = Returns (up ++ down, total)
    /\ ui.scan "right" (ui.mkDiskScheduler 50 200 [82; 170; 43; 140; 24; 16; 190])
       = Returns (up ++ down, total)
    /\ StronglySorted Z.le (50 :: up)
    /\ StronglySorted Z.ge (50 :: down).
Proof.
  apply (scan_reverses_at_most_once 50 50 200 [82; 170; 43; 140; 24; 16; 190]).
  - unfold in_range. lia.
  - repeat constructor; unfold in_range; lia.
Defined.

End Elevator.

(** ** From the callers to the engine *)

Section Callers.

Lemma cli_enter_spec (h cur M : Z) (R : list Z) (printed : list string)
      (line : outcome Z) :
  exists said,
    diskscheduler_main.enter (diskscheduler.mkDiskScheduler h cur M R, printed) line
    = (diskscheduler.mkDiskScheduler h cur M (R ++ accepted M [line]), printed ++ said)
    /\ (List.length said + List.length (accepted M [line]) = 1)%nat.
Proof.
  unfold diskscheduler_main.enter, accepted. simpl.
  destruct line as [c|[msg]].
  - unfold diskscheduler.add_request. simpl.
    destruct ((0 <=? c) && (c <=? M)); simpl.
    + exists []. rewrite !app_nil_r. split; reflexivity.
    + eexists [_]. rewrite !app_nil_r. split; reflexivity.
  - exists [msg]. rewrite !app_nil_r. split; reflexivity.
Qed.

Lemma accepted_app (M : Z) (l1 l2 : list (outcome Z)) :
  accepted M (l1 ++ l2) = accepted M l1 ++ accepted M l2.
Proof. unfold accepted. apply flat_map_app. Qed.

Lemma cli_read_fold (lines : list (outcome Z)) :
  forall (h cur M : Z) (R : list Z) (printed : list string),
  exists said,
    fold_left diskscheduler_main.enter lines
      (diskscheduler.mkDiskScheduler h cur M R, printed)
    = (diskscheduler.mkDiskScheduler h cur M (R ++ accepted M lines), printed ++ said)
    /\ (List.length said + List.length (accepted M lines) = List.length lines)%nat.
Proof.
  induction lines as [|line lines IH]; intros h cur M R printed.
  - exists []. simpl. rewrite !app_nil_r. split; reflexivity.
  - destruct (cli_enter_spec h cur M R printed line) as (said1 & H1 & L1).
    destruct (IH h cur M (R ++ accepted M [line]) (printed ++ said1))
      as (said2 & H2 & L2).
    exists (said1 ++ said2). cbn [fold_left]. rewrite H1, H2.
    change (line :: lines) with ([line] ++ lines).
    rewrite accepted_app, <- !app_assoc, !length_app. split; [reflexivity|].
    simpl in *. lia.
Qed.

Lemma accepted_in_range (M : Z) (lines : list (outcome Z)) :
  Forall (in_range M) (accepted M lines).
Proof.
  apply Forall_forall. intros x Hx. unfold accepted in Hx.
  apply in_flat_map in Hx. destruct Hx as (line & _ & Hx).
  destruct line as [c|e]; [|destruct Hx].
  destruct ((0 <=? c) && (c <=? M)) eqn:E; [|destruct Hx].
  destruct Hx as [<-|[]]. apply range_test, E.
Qed.

Lemma accepted_valid (M : Z) (cs : list Z) :
  Forall (in_range M) cs -> accepted M (map Returns cs) = cs.
Proof.
  induction 1 as [|c cs Hc Hcs IH]; [reflexivity|].
  unfold accepted in *. simpl. apply range_test in Hc. rewrite Hc, IH. reflexivity.
Qed.

(** X12: the request loop of [main] in [diskscheduler.py] stores, in
    the order typed, exactly the lines that convert to a cylinder of
    [0, M], after the requests already held; it prints one message for
    every other line, changes neither the head position nor the range, and
    so leaves only cylinders of [0, M] in a scheduler that held only such;
    lines that are all valid cylinders are stored as typed, with nothing
    printed. *)
Theorem read_requests_keeps_valid_lines (h cur M : Z) (R : list Z)
        (lines : list (outcome Z)) :
  exists printed,
    diskscheduler_main.read_requests (diskscheduler.mkDiskScheduler h cur M R) lines
    = (diskscheduler.mkDiskScheduler h cur M (R ++ accepted M lines), printed)
    /\ (List.length printed + List.length (accepted M lines) = List.length lines)%nat
    /\ Forall (in_range M) (accepted M lines)
    /\ (forall cs, Forall (in_range M) cs -> lines = map Returns cs ->
                   accepted M lines = cs /\ printed = []).
Proof.
  destruct (cli_read_fold lines h cur M R []) as (said & Hrun & Hlen).
  exists said. split; [exact Hrun|]. split; [exact Hlen|].
  split; [apply accepted_in_range|].
  intros cs Hcs ->. rewrite (accepted_valid M cs Hcs) in *.
  split; [reflexivity|]. rewrite length_map in Hlen.
  destruct said; [reflexivity | simpl in Hlen; lia].
Qed.

Lemma read_requests_keeps_valid_lines_witness :
  (exists printed,
      diskscheduler_main.read_requests (diskscheduler.mkDiskScheduler 50 50 200 [])
        [Returns 82; Returns 201; Raises (ValueError "invalid literal"); Returns 16]
      = (diskscheduler.mkDiskScheduler 50 50 200 [82; 16], printed)
      /\ List.length printed = 2%nat)
  /\ diskscheduler_main.read_requests (diskscheduler.mkDiskScheduler 50 50 200 [170])
       [Returns 82; Returns 16]
     = (diskscheduler.mkDiskScheduler 50 50 200 [170; 82; 16], []).
Proof.
  split.
  - destruct (read_requests_keeps_valid_lines 50 50 200 []
                [Returns 82; Returns 201; Raises (ValueError "invalid literal");
                 Returns 16])
      as (printed & Hrun & Hlen & _).
    exists printed. split; [exact Hrun|]. simpl in Hlen. lia.
  - destruct (read_requests_keeps_valid_lines 50 50 200 [170] (map Returns [82; 16]))
      as (printed & Hrun & _ & _ & Hvalid).
    destruct (Hvalid [82; 16]) as [Hacc Hpr].
    + repeat constructor; unfold in_range; lia.
    + reflexivity.
    + simpl map in Hrun. rewrite Hrun, Hpr. reflexivity.
Defined.

(** X13: in [main] of [diskscheduler.py] with a head position
    within [0, M], whatever lines are typed as requests, each of the four
    choices returns a schedule whose cylinders all lie within [0, M] and
    whose total is the replay of the sequence; any other choice computes
    no schedule. *)
Theorem cli_main_schedules_in_range (h M : Z) (lines : list (outcome Z))
        (choice direction : string) :
  in_range M h ->
  ((choice = "1" \/ choice = "2" \/ choice = "3" \/ choice = "4")%string ->
   exists seq,
     diskscheduler_main.simulate h M lines choice direction
     = Some (Returns (seq, replay h seq))
     /\ Forall (in_range M) seq)
  /\ (~ (choice = "1" \/ choice = "2" \/ choice = "3" \/ choice = "4")%string ->
      diskscheduler_main.simulate h M lines choice direction = None).
Proof.
  intros Hh. unfold diskscheduler_main.simulate, diskscheduler.init.
  destruct (cli_read_fold lines h h M [] []) as (said & Hrun & _).
  unfold diskscheduler_main.read_requests. rewrite Hrun. simpl app.
  pose proof (accepted_in_range M lines) as HR.
  set (R := accepted M lines) in *.
  unfold diskscheduler_main.run_choice. split.
  - intros [-> | [-> | [-> | ->]]]; cbn [String.eqb Ascii.eqb Bool.eqb].
    + rewrite cli_fcfs_eq. simpl. eexists. split; [reflexivity | exact HR].
    + destruct (cli_sstf_eq (diskscheduler.mkDiskScheduler h h M R))
        as (order & -> & Hnf).
      simpl in *. eexists. split; [reflexivity|].
      apply (Permutation_Forall (nearest_first_perm _ _ _ Hnf)), HR.
    + rewrite cli_scan_eq. simpl. eexists. split; [reflexivity|].
      apply scan_sequence_in_range; assumption.
    + rewrite cli_cscan_eq. simpl. eexists. split; [reflexivity|].
      apply cscan_sequence_in_range; assumption.
  - intros Hno.
    destruct (String.eqb choice "1") eqn:E1;
      [apply String.eqb_eq in E1; tauto|].
    destruct (String.eqb choice "2") eqn:E2;
      [apply String.eqb_eq in E2; tauto|].
    destruct (String.eqb choice "3") eqn:E3;
      [apply String.eqb_eq in E3; tauto|].
    destruct (String.eqb choice "4") eqn:E4;
      [apply String.eqb_eq in E4; tauto|].
    reflexivity.
Qed.

Lemma cli_main_schedules_in_range_witness :
  exists seq,
    diskscheduler_main.simulate 50 200
      [Returns 82; Returns 201; Raises (ValueError "invalid literal"); Returns 16]
      "4" "right"
    = Some (Returns (seq, replay 50 seq))
    /\ Forall (in_range 200) seq.
Proof.
  apply (cli_main_schedules_in_range 50 200
           [Returns 82; Returns 201; Raises (ValueError "invalid literal"); Returns 16]
           "4" "right").
  - unfold in_range. lia.
  - right. right. right. reflexivity.
Defined.

Lemma ui_add_all_spec (cs : list Z) :
  forall (h M : Z) (R : list Z),
    (Forall (in_range M) cs
     /\ ui_main.add_all cs (ui.mkDiskScheduler h M R)
        = Returns (ui.mkDiskScheduler h M (R ++ cs)))
    \/ (~ Forall (in_range M) cs
        /\ ui_main.add_all cs (ui.mkDiskScheduler h M R)
           = Raises (ValueError ("Request must be between 0 and " ++ Py.str M))).
Proof.
  induction cs as [|c cs IH]; intros h M R.
  - left. simpl. rewrite app_nil_r. split; [constructor | reflexivity].
  - cbn [ui_main.add_all]. unfold ui.add_request. simpl.
    destruct ((0 <=? c) && (c <=? M)) eqn:E.
    + apply range_test in E.
      destruct (IH h M (R ++ [c])) as [[Hall Hrun]|[Hno Hrun]].
      * left. rewrite Hrun, <- app_assoc. split; [constructor; assumption | reflexivity].
      * right. rewrite Hrun. split; [|reflexivity].
        intros Hall. inversion Hall; subst. contradiction.
    + right. split; [|reflexivity].
      intros Hall. inversion Hall as [|? ? Hc]; subst.
      apply range_test in Hc. congruence.
Qed.

Lemma ui_run_not_empty (alg : ui_main.algorithm) (direction : string)
      (h M : Z) (R : list Z) :
  R <> [] ->
  exists seq,
    ui_main.run alg direction (ui.mkDiskScheduler h M R) = Returns (seq, replay h seq)
    /\ seq <> [].
Proof.
  intros Hne.
  assert (Hlen : forall seq : list Z,
             (List.length R <= List.length seq)%nat -> seq <> []).
  { intros seq Hl ->. destruct R; [contradiction | simpl in Hl; lia]. }
  destruct alg; simpl.
  - rewrite ui_fcfs_eq. eexists. split; [reflexivity | exact Hne].
  - destruct (ui_sstf_eq (ui.mkDiskScheduler h M R)) as (order & -> & Hnf).
    eexists. split; [reflexivity|]. apply Hlen.
    rewrite (nearest_first_length _ _ _ Hnf). simpl. lia.
  - rewrite ui_scan_eq. eexists. split; [reflexivity|]. apply Hlen.
    simpl. destruct (scan_sequence_length direction h M R); lia.
  - rewrite ui_cscan_eq by exact Hne. eexists. split; [reflexivity|]. apply Hlen.
    simpl. destruct (cscan_sequence_length h M R); lia.
Qed.

(** X14: a press on "Run Simulation" in [ui.py] has three outcomes:
    with no request it reports that a request is needed; with a non-empty
    list of requests all within [0, M] it shows the schedule that the
    chosen policy returns on exactly those requests, which is never empty,
    so the average never divides by zero; and as soon as one request lies
    outside [0, M] it shows the range error of [add_request] and no
    schedule. *)
Theorem run_simulation_outcomes (h M : Z) (requests : list Z)
        (alg : ui_main.algorithm) (direction : string) :
  (requests = [] ->
   ui_main.run_simulation h M requests alg direction = ui_main.NoRequests)
  /\ (requests <> [] -> Forall (in_range M) requests ->
      exists seq total,
        ui_main.run alg direction (ui.mkDiskScheduler h M requests)
        = Returns (seq, total)
        /\ seq <> []
        /\ ui_main.run_simulation h M requests alg direction
           = ui_main.Results seq total)
  /\ (~ Forall (in_range M) requests ->
      ui_main.run_simulation h M requests alg direction
      = ui_main.SimulationError
          ("Simulation Error: Request must be between 0 and " ++ Py.str M)).
Proof.
  split; [intros ->; reflexivity|].
  unfold ui_main.run_simulation, ui.init. cbn [bind].
  split.
  - intros Hne Hall.
    destruct (ui_run_not_empty alg direction h M requests Hne) as (seq & Hrun & Hseq).
    exists seq, (replay h seq). split; [exact Hrun|]. split; [exact Hseq|].
    destruct requests as [|r rs]; [contradiction|]. cbn [Py.truthy negb].
    destruct (ui_add_all_spec (r :: rs) h M []) as [[_ Hadd]|[Hno _]];
      [|contradiction].
    rewrite Hadd. cbn [bind app]. rewrite Hrun.
    destruct seq; [contradiction | reflexivity].
  - intros Hno.
    destruct requests as [|r rs]; [exfalso; apply Hno; constructor|].
    cbn [Py.truthy negb].
    destruct (ui_add_all_spec (r :: rs) h M []) as [[Hall _]|[_ Hadd]];
      [contradiction|].
    rewrite Hadd. reflexivity.
Qed.

Lemma run_simulation_outcomes_witness :
  ui_main.run_simulation 50 200 [] ui_main.SCAN "left" = ui_main.NoRequests
  /\ (exists seq total,
         ui_main.run ui_main.CSCAN "right" (ui.mkDiskScheduler 50 200 [82; 16])
         = Returns (seq, total)
         /\ seq <> []
         /\ ui_main.run_simulation 50 200 [82; 16] ui_main.CSCAN "right"
            = ui_main.Results seq total)
  /\ ui_main.run_simulation 50 200 [82; 201] ui_main.FCFS "right"
     = ui_main.SimulationError "Simulation Error: Request must be between 0 and 200".
Proof.
  split; [|split].
  - apply (run_simulation_outcomes 50 200 [] ui_main.SCAN "left"). reflexivity.
  - apply (run_simulation_outcomes 50 200 [82; 16] ui_main.CSCAN "right").
    + discriminate.
    + repeat constructor; unfold in_range; lia.
  - apply (run_simulation_outcomes 50 200 [82; 201] ui_main.FCFS "right").
    intros H. inversion H as [|? ? _ H']; subst.
    inversion H' as [|? ? Hc _]; subst. unfold in_range in Hc. lia.
Defined.

(** X15: adding a request within [0, M] and running [fcfs] again
    appends that request to the former sequence and adds to the former
    total the distance from the last request served before (the head
    position when there was none) to the new one. *)
Theorem fcfs_after_add_request (c h cur M : Z) (R : list Z) :
  in_range M c ->
  diskscheduler.fcfs
    (snd (diskscheduler.add_request c (diskscheduler.mkDiskScheduler h cur M R)))
  = Returns (R ++ [c], replay h R + Z.abs (c - head_after h R))
  /\ ui.fcfs (snd (ui.add_request c (ui.mkDiskScheduler h M R)))
     = Returns (R ++ [c], replay h R + Z.abs (c - head_after h R)).
Proof.
  intros Hc. apply range_test in Hc.
  unfold diskscheduler.add_request, ui.add_request. simpl. rewrite Hc. simpl.
  rewrite cli_fcfs_eq, ui_fcfs_eq. simpl.
  rewrite replay_app. simpl. rewrite Z.add_0_r. split; reflexivity.
Qed.

Lemma fcfs_after_add_request_witness :
  diskscheduler.fcfs
    (snd (diskscheduler.add_request 43 (diskscheduler.mkDiskScheduler 50 50 200 [82; 170])))
  = Returns ([82; 170; 43], 120 + 127).
Proof.
  apply (fcfs_after_add_request 43 50 50 200 [82; 170]). unfold in_range. lia.
Defined.

End Callers.

(** ** SCAN with nothing on the side it starts towards *)

Section FarSide.

(** X16: when every request lies strictly on the side opposite to
    the direction of [scan], the guard keeps the boundary out: the head
    makes a single sweep over the requests, nearest first, and the total
    is the distance from the head to the farthest request. *)
Theorem scan_far_side_only_is_one_sweep (h cur M : Z) (R : list Z) :
  ((forall r, In r R -> r < h) ->
   let seq := Py.sorted_reverse R in
   diskscheduler.scan "right" (diskscheduler.mkDiskScheduler h cur M R)
   = Returns (seq, h - head_after h seq)
   /\ ui.scan "right" (ui.mkDiskScheduler h M R) = Returns (seq, h - head_after h seq)
   /\ forall r, In r R -> head_after h seq <= r)
  /\ ((forall r, In r R -> h < r) ->
      let seq := Py.sorted R in
      diskscheduler.scan "left" (diskscheduler.mkDiskScheduler h cur M R)
      = Returns (seq, head_after h seq - h)
      /\ ui.scan "left" (ui.mkDiskScheduler h M R) = Returns (seq, head_after h seq - h)
      /\ forall r, In r R -> r <= head_after h seq).
Proof.
  split; intros Hall seq.
  - assert (Hseq : scan_sequence "right" h M R = seq).
    { unfold scan_sequence. change (is_right "right") with true. cbv iota.
      replace (filter (fun r => r >=? h) (Py.sorted R)) with (@nil Z).
      - simpl. rewrite filter_all.
        + apply sorted_reverse_canonical. symmetry. apply sorted_perm.
        + intros x Hx. apply Z.ltb_lt, Hall, sorted_In, Hx.
      - symmetry. apply filter_none. intros x Hx.
        apply sorted_In, Hall in Hx.
        destruct (x >=? h) eqn:E; [|reflexivity]. apply Z.geb_le in E. lia. }
    destruct (descending_run seq h (sorted_reverse_strongly R)) as (Hcost & _ & Hmin).
    { intros x Hx. apply sorted_reverse_In, Hall in Hx. lia. }
    rewrite cli_scan_eq, ui_scan_eq. simpl. rewrite Hseq, Hcost.
    repeat split. intros r Hr. apply Hmin, sorted_reverse_In, Hr.
  - assert (Hseq : scan_sequence "left" h M R = seq).
    { unfold scan_sequence. change (is_right "left") with false. cbv iota.
      replace (filter (fun r => r <=? h) (Py.sorted R)) with (@nil Z).
      - simpl. rewrite filter_all.
        + apply sorted_canonical. symmetry. apply sorted_perm.
        + intros x Hx. apply sorted_In, Hall in Hx.
          rewrite Z.gtb_ltb. apply Z.ltb_lt. exact Hx.
      - symmetry. apply filter_none. intros x Hx.
        apply sorted_In, Hall in Hx. apply Z.leb_gt. exact Hx. }
    destruct (ascending_run seq h (sorted_strongly R)) as (Hcost & _ & Hmax).
    { intros x Hx. apply sorted_In, Hall in Hx. lia. }
    rewrite cli_scan_eq, ui_scan_eq. simpl. rewrite Hseq, Hcost.
    repeat split. intros r Hr. apply Hmax, sorted_In, Hr.
Qed.

Lemma scan_far_side_only_is_one_sweep_witness :
  diskscheduler.scan "right" (diskscheduler.mkDiskScheduler 50 50 200 [24; 43; 16])
  = Returns ([43; 24; 16], 50 - 16)
  /\ ui.scan "left" (ui.mkDiskScheduler 50 200 [170; 82; 140])
     = Returns ([82; 140; 170], 170 - 50).
Proof.
  split.
  - destruct (scan_far_side_only_is_one_sweep 50 50 200 [24; 43; 16]) as [Hr _].
    destruct Hr as (Hc & _ & _).
    + intros r [<-|[<-|[<-|[]]]]; lia.
    + exact Hc.
  - destruct (scan_far_side_only_is_one_sweep 50 50 200 [170; 82; 140]) as [_ Hl].
    destruct Hl as (_ & Hu & _).
    + intros r [<-|[<-|[<-|[]]]]; lia.
    + exact Hu.
Defined.

End FarSide.
